(** * Filter evaluators and cursor controllers of the UI showcase pages

    A shallow embedding of the client-side logic of three pages:
    - [EcommerceListing.tsx]: the product filter [filteredProducts] and the
      hero carousel ([nextSlide], [prevSlide], the indicator buttons);
    - [RestaurantMenu.tsx]: the menu filter [filteredItems] and the label
      toggle [toggleFilter];
    - the signup wizard ([MobileSignup]): [nextStep], [prevStep],
      [toggleInterest], [updateField] and the buttons that call them;
    - [Index.tsx]: the labels of the footer links.
    Each page also has its events ([Event], [dispatch], [run]): the controls
    it renders and what their handlers do to the state.

    React state is modelled by explicit state passing: every handler is a
    function from the state before the event to the state after it.
    JavaScript numbers that are used as integers are [Z]; arrays are lists;
    an object used as a dictionary is a [gmap] of its own properties, with
    the properties inherited from [Object.prototype] written out where a
    lookup by a computed key can reach them. *)

From stdpp Require Import base strings list gmap.
From Stdlib Require Import ZArith Lia Ascii.

Local Open Scope Z_scope.

(** ** JavaScript primitives *)

Module JS.

(** [a % b] on integers: the remainder has the sign of the dividend. *)
Definition remainder (a b : Z) : Z := Z.rem a b.

(** [s.includes(sub)]. *)
Definition includes (s sub : string) : bool :=
  match String.index 0 sub s with
  | Some _ => true
  | None => false
  end.

(** A string in a boolean position: only the empty string is falsy. *)
Definition truthy (s : string) : bool :=
  match s with
  | EmptyString => false
  | String _ _ => true
  end.

(** [s.length], as a number.  A string is its sequence of code units; the
    model keeps the code units below 256, one per [ascii]. *)
Definition str_length (s : string) : Z := Z.of_nat (String.length s).

(** White space and line terminators among the code units below 256:
    TAB, LF, VT, FF, CR, SP and NBSP. *)
Definition is_white_space (c : ascii) : bool :=
  let n := nat_of_ascii c in
  ((9 <=? n)%nat && (n <=? 13)%nat) || (n =? 32)%nat || (n =? 160)%nat.

Fixpoint trimStart (s : string) : string :=
  match s with
  | EmptyString => EmptyString
  | String c s' => if is_white_space c then trimStart s' else s
  end.

Fixpoint trimEnd (s : string) : string :=
  match s with
  | EmptyString => EmptyString
  | String c s' =>
      match trimEnd s' with
      | EmptyString => if is_white_space c then EmptyString else String c EmptyString
      | t => String c t
      end
  end.

(** [s.trim()]. *)
Definition trim (s : string) : string := trimEnd (trimStart s).

(** How the evaluation of an expression ends: with a value, or with a
    thrown [TypeError]. *)
Inductive Completion (A : Type) : Type :=
| Normal (a : A)
| TypeError.
Global Arguments Normal {A} a.
Global Arguments TypeError {A}.

(** The property names every plain object inherits from
    [Object.prototype].  Each of them reads as a function, except
    [__proto__], which reads as the prototype object itself: none is
    [undefined] or [null], and none has a [filter] method. *)
Definition object_prototype_keys : list string :=
  [ "constructor"; "__defineGetter__"; "__defineSetter__"; "hasOwnProperty";
    "__lookupGetter__"; "__lookupSetter__"; "isPrototypeOf";
    "propertyIsEnumerable"; "toString"; "valueOf"; "__proto__";
    "toLocaleString" ]%string.

End JS.

(** ** EcommerceListing.tsx *)

Module Ecommerce.

(** An entry of [products].  The fields [rating], [reviews] and [image]
    are only rendered and are left out; [originalPrice] is optional and
    [badge] may be [null]. *)
Record Product : Type := {
  id : Z;
  name : string;
  price : Z;
  originalPrice : option Z;
  category : string;
  badge : option string
}.

Global Instance Product_eq_dec : EqDecision Product.
Proof. solve_decision. Defined.

Definition products : list Product :=
  [ {| id := 1; name := "Premium Cotton T-Shirt"; price := 45;
       originalPrice := Some 65; category := "clothing"; badge := Some "Sale"%string |};
    {| id := 2; name := "Leather Crossbody Bag"; price := 120;
       originalPrice := None; category := "bags"; badge := Some "New"%string |};
    {| id := 3; name := "Classic Sneakers"; price := 85;
       originalPrice := Some 110; category := "shoes"; badge := Some "Popular"%string |};
    {| id := 4; name := "Summer Hat"; price := 35;
       originalPrice := None; category := "accessories"; badge := None |};
    {| id := 5; name := "Denim Jacket"; price := 89;
       originalPrice := Some 120; category := "clothing"; badge := Some "Sale"%string |};
    {| id := 6; name := "Gold Watch"; price := 299;
       originalPrice := None; category := "accessories"; badge := Some "Premium"%string |} ].

(** The state of the page: the four [useState] cells. *)
Record State : Type := {
  cartCount : Z;
  currentSlide : Z;
  selectedCategory : string;
  priceRange : Z * Z
}.

Definition initial : State :=
  {| cartCount := 0; currentSlide := 0;
     selectedCategory := "all"; priceRange := (0, 500) |}.

(** [products.filter(product => (selectedCategory === 'all' ||
    product.category === selectedCategory) && product.price >=
    priceRange[0] && product.price <= priceRange[1])], over any catalog. *)
Definition filteredProducts (products : list Product)
    (selectedCategory : string) (priceRange : Z * Z) : list Product :=
  filter (λ product,
            (selectedCategory = "all"%string ∨ category product = selectedCategory)
            ∧ price product >= priceRange.1 ∧ price product <= priceRange.2)
         products.

(** An entry of [heroSlides]; the emoji [image] is left out. *)
Record HeroSlide : Type := {
  title : string;
  subtitle : string;
  gradient : string
}.

Definition heroSlides : list HeroSlide :=
  [ {| title := "New Arrivals"; subtitle := "Spring Collection 2024";
       gradient := "from-coral to-amber" |};
    {| title := "Summer Sale"; subtitle := "Up to 70% Off";
       gradient := "from-amber to-teal" |};
    {| title := "Premium Quality"; subtitle := "Crafted with Care";
       gradient := "from-teal to-coral" |} ].

(** [(prev) => (prev + 1) % heroSlides.length] *)
Definition nextSlide (heroSlides : list HeroSlide) (prev : Z) : Z :=
  JS.remainder (prev + 1) (Z.of_nat (length heroSlides)).

(** [(prev) => (prev - 1 + heroSlides.length) % heroSlides.length] *)
Definition prevSlide (heroSlides : list HeroSlide) (prev : Z) : Z :=
  JS.remainder (prev - 1 + Z.of_nat (length heroSlides)) (Z.of_nat (length heroSlides)).

(** The three ways the page moves the carousel: the two arrow buttons and
    the indicator button of slide [index], whose handler is
    [setCurrentSlide(index)]. *)
Inductive CarouselEvent : Type :=
| ClickNext
| ClickPrev
| ClickIndicator (index : Z).

Definition carousel_step (heroSlides : list HeroSlide) (position : Z)
    (e : CarouselEvent) : Z :=
  match e with
  | ClickNext => nextSlide heroSlides position
  | ClickPrev => prevSlide heroSlides position
  | ClickIndicator index => index
  end.

(** The indicator buttons are produced by [heroSlides.map((_, index) => ...)]:
    there is one per index of the array and no other. *)
Definition rendered (heroSlides : list HeroSlide) (e : CarouselEvent) : Prop :=
  match e with
  | ClickIndicator index => 0 <= index < Z.of_nat (length heroSlides)
  | _ => True
  end.

Definition carousel_run (heroSlides : list HeroSlide) (position : Z)
    (es : list CarouselEvent) : Z :=
  foldl (carousel_step heroSlides) position es.

(** An entry of [categories]; the emoji [image] is left out.  The fields
    are [id] and [name] in the source. *)
Record Category : Type := {
  category_id : string;
  category_name : string
}.

Global Instance Category_eq_dec : EqDecision Category.
Proof. solve_decision. Defined.

Definition categories : list Category :=
  [ {| category_id := "all"; category_name := "All Products" |};
    {| category_id := "clothing"; category_name := "Clothing" |};
    {| category_id := "accessories"; category_name := "Accessories" |};
    {| category_id := "shoes"; category_name := "Shoes" |};
    {| category_id := "bags"; category_name := "Bags" |} ].

(** The heading of the product grid:
    [selectedCategory === 'all' ? 'All Products'
     : categories.find(c => c.id === selectedCategory)?.name];
    [None] is [undefined]. *)
Definition heading (categories : list Category) (selectedCategory : string)
    : option string :=
  if bool_decide (selectedCategory = "all"%string) then Some "All Products"%string
  else (λ found, category_name found.2)
         <$> list_find (λ c, category_id c = selectedCategory) categories.

(** [setCartCount(prev => prev + 1)] *)
Definition addToCart (s : State) : State :=
  {| cartCount := cartCount s + 1; currentSlide := currentSlide s;
     selectedCategory := selectedCategory s; priceRange := priceRange s |}.

Definition setCurrentSlide (n : Z) (s : State) : State :=
  {| cartCount := cartCount s; currentSlide := n;
     selectedCategory := selectedCategory s; priceRange := priceRange s |}.

Definition setSelectedCategory (c : string) (s : State) : State :=
  {| cartCount := cartCount s; currentSlide := currentSlide s;
     selectedCategory := c; priceRange := priceRange s |}.

Definition setPriceRange (r : Z * Z) (s : State) : State :=
  {| cartCount := cartCount s; currentSlide := currentSlide s;
     selectedCategory := selectedCategory s; priceRange := r |}.

(** The cart badge is rendered under [cartCount > 0]. *)
Definition cart_badge_shown (s : State) : bool := bool_decide (cartCount s > 0).

(** What the user can do on the page: the Add to Cart button of a product
    card, a category card, the price slider (the event carries the number
    that [parseInt(e.target.value)] reads), and the carousel controls. *)
Inductive Event : Type :=
| ClickAddToCart
| ClickCategory (id : string)
| Slide (value : Z)
| Carousel (e : CarouselEvent).

(** The effect of an event.  The Add to Cart buttons are rendered by
    [filteredProducts.map(...)], one per product shown: with no product
    shown there is no button to click.  The slider's handler is
    [setPriceRange([priceRange[0], parseInt(e.target.value)])]. *)
Definition dispatch (s : State) (e : Event) : State :=
  match e with
  | ClickAddToCart =>
      match filteredProducts products (selectedCategory s) (priceRange s) with
      | [] => s
      | _ :: _ => addToCart s
      end
  | ClickCategory id => setSelectedCategory id s
  | Slide value => setPriceRange ((priceRange s).1, value) s
  | Carousel e => setCurrentSlide (carousel_step heroSlides (currentSlide s) e) s
  end.

(** The controls that exist: a card per entry of [categories], the
    indicators of the slides, and a slider declared with [min="0"] and
    [max="500"], whose value is a whole number of that range. *)
Definition available (e : Event) : Prop :=
  match e with
  | ClickAddToCart => True
  | ClickCategory id => id ∈ category_id <$> categories
  | Slide value => 0 <= value <= 500
  | Carousel e => rendered heroSlides e
  end.

Definition run (s : State) (es : list Event) : State := foldl dispatch s es.

(** What every state reached through the controls of the page satisfies,
    [n] being a bound on the number of events so far. *)
Definition invariant (s : State) (n : nat) : Prop :=
  (priceRange s).1 = 0
  ∧ 0 <= (priceRange s).2 <= 500
  ∧ 0 <= currentSlide s < 3
  ∧ selectedCategory s ∈ category_id <$> categories
  ∧ 0 <= cartCount s <= Z.of_nat n.

End Ecommerce.

(** ** RestaurantMenu.tsx *)

Module Menu.

(** An entry of [menuItems]; [description] and [image] are only rendered
    and are left out.  The [price] is a display string. *)
Record MenuItem : Type := {
  id : Z;
  name : string;
  price : string;
  tags : list string
}.

Global Instance MenuItem_eq_dec : EqDecision MenuItem.
Proof. solve_decision. Defined.

Definition appetizers : list MenuItem :=
  [ {| id := 1; name := "Truffle Arancini"; price := "$18";
       tags := ["vegetarian"; "popular"]%string |};
    {| id := 2; name := "Seared Scallops"; price := "$24";
       tags := ["popular"]%string |};
    {| id := 3; name := "Spicy Tuna Tartare"; price := "$22";
       tags := ["spicy"]%string |} ].

Definition mains : list MenuItem :=
  [ {| id := 4; name := "Wagyu Ribeye"; price := "$65";
       tags := ["popular"]%string |};
    {| id := 5; name := "Lobster Risotto"; price := "$38";
       tags := ["popular"]%string |};
    {| id := 6; name := "Vegetarian Wellington"; price := "$28";
       tags := ["vegetarian"]%string |} ].

Definition desserts : list MenuItem :=
  [ {| id := 7; name := "Chocolate Souffl" +:+ String (ascii_of_nat 233) ""; price := "$16";
       tags := ["popular"]%string |};
    {| id := 8; name := "Lemon Tart"; price := "$14";
       tags := ["vegetarian"]%string |} ].

Definition drinks : list MenuItem :=
  [ {| id := 9; name := "Signature Martini"; price := "$18";
       tags := ["popular"]%string |};
    {| id := 10; name := "Spiced Old Fashioned"; price := "$16";
       tags := ["spicy"]%string |} ].

(** The object literal [menuItems]: its own properties. *)
Definition menuItems : gmap string (list MenuItem) :=
  <["appetizers"%string := appetizers]>
    (<["mains"%string := mains]>
       (<["desserts"%string := desserts]>
          (<["drinks"%string := drinks]> ∅))).

(** The state of the page: the two [useState] cells. *)
Record State : Type := {
  activeCategory : string;
  selectedFilters : list string
}.

Definition initial : State :=
  {| activeCategory := "appetizers"; selectedFilters := [] |}.

(** [prev => prev.includes(filterId) ? prev.filter(f => f !== filterId)
    : [...prev, filterId]] *)
Definition toggleFilter (filterId : string) (prev : list string) : list string :=
  if bool_decide (filterId ∈ prev)
  then filter (λ f, f ≠ filterId) prev
  else prev ++ [filterId].

(** What [menuItems[activeCategory]] reads: an own property, which is an
    array of items; or, the key missing among the own properties, what the
    prototype chain gives: a value inherited from [Object.prototype], or
    [undefined] at the end of the chain. *)
Inductive Property : Type :=
| Array (items : list MenuItem)
| Inherited
| Undefined.

Definition get (menuItems : gmap string (list MenuItem)) (key : string) : Property :=
  match menuItems !! key with
  | Some items => Array items
  | None =>
      if bool_decide (key ∈ JS.object_prototype_keys) then Inherited else Undefined
  end.

(** The callback of the filter: [item => selectedFilters.length === 0 ||
    selectedFilters.some(filter => item.tags.includes(filter))]. *)
Definition shown (selectedFilters : list string) (item : MenuItem) : Prop :=
  length selectedFilters = 0%nat ∨ Exists (λ filter, filter ∈ tags item) selectedFilters.

Global Instance shown_dec selectedFilters item : Decision (shown selectedFilters item).
Proof. unfold shown. apply _. Defined.

(** [menuItems[activeCategory]?.filter(item => ...) || []].
    The optional chain stops at [undefined] only, and the fallback [|| []]
    then gives the empty array.  An array is filtered, and being an object
    it is truthy, so the fallback is not taken even when the result is
    empty.  An inherited value is neither [undefined] nor [null]: the chain
    goes on, reads [filter] on it, finds [undefined] and calls it, which
    throws. *)
Definition filteredItems (menuItems : gmap string (list MenuItem))
    (activeCategory : string) (selectedFilters : list string)
    : JS.Completion (list MenuItem) :=
  match get menuItems activeCategory with
  | Array items => JS.Normal (filter (shown selectedFilters) items)
  | Undefined => JS.Normal []
  | Inherited => JS.TypeError
  end.

(** The ids of [categories] (the tabs) and of [filters] (the chips); their
    display names and icons are left out. *)
Definition categories : list string :=
  [ "appetizers"; "mains"; "desserts"; "drinks" ]%string.

Definition filters : list string := [ "popular"; "vegetarian"; "spicy" ]%string.

Definition setActiveCategory (c : string) (s : State) : State :=
  {| activeCategory := c; selectedFilters := selectedFilters s |}.

Definition setSelectedFilters (f : list string → list string) (s : State) : State :=
  {| activeCategory := activeCategory s; selectedFilters := f (selectedFilters s) |}.

(** A chip is highlighted under [selectedFilters.includes(filter.id)]. *)
Definition chip_highlighted (s : State) (filterId : string) : bool :=
  bool_decide (filterId ∈ selectedFilters s).

(** The controls of the page: a tab per entry of [categories], whose
    handler is [setActiveCategory(category.id)], and a chip per entry of
    [filters], whose handler is [toggleFilter(filter.id)]. *)
Inductive Event : Type :=
| ClickTab (id : string)
| ClickChip (id : string).

Definition dispatch (s : State) (e : Event) : State :=
  match e with
  | ClickTab id => setActiveCategory id s
  | ClickChip id => setSelectedFilters (toggleFilter id) s
  end.

Definition available (e : Event) : Prop :=
  match e with
  | ClickTab id => id ∈ categories
  | ClickChip id => id ∈ filters
  end.

Definition run (s : State) (es : list Event) : State := foldl dispatch s es.

End Menu.

(** ** The signup wizard (MobileSignup) *)

Module Signup.

Record FormData : Type := {
  name : string;
  email : string;
  password : string;
  interests : list string
}.

(** The state of the page: the three [useState] cells. *)
Record State : Type := {
  currentStep : Z;
  showPassword : bool;
  formData : FormData
}.

Definition initial : State :=
  {| currentStep := 1; showPassword := false;
     formData := {| name := ""; email := ""; password := ""; interests := [] |} |}.

Definition interests_offered : list string :=
  [ "Sports"; "News"; "Music"; "Tech"; "Art"; "Food"; "Travel"; "Gaming" ]%string.

Definition setCurrentStep (n : Z) (s : State) : State :=
  {| currentStep := n; showPassword := showPassword s; formData := formData s |}.

Definition setShowPassword (b : bool) (s : State) : State :=
  {| currentStep := currentStep s; showPassword := b; formData := formData s |}.

Definition setFormData (f : FormData → FormData) (s : State) : State :=
  {| currentStep := currentStep s; showPassword := showPassword s;
     formData := f (formData s) |}.

(** [if (currentStep < 3) setCurrentStep(currentStep + 1)] *)
Definition nextStep (s : State) : State :=
  if bool_decide (currentStep s < 3) then setCurrentStep (currentStep s + 1) s else s.

(** [if (currentStep > 1) setCurrentStep(currentStep - 1)] *)
Definition prevStep (s : State) : State :=
  if bool_decide (currentStep s > 1) then setCurrentStep (currentStep s - 1) s else s.

(** [setFormData(prev => ({...prev, interests: prev.interests.includes(interest)
    ? prev.interests.filter(i => i !== interest) : [...prev.interests, interest]}))] *)
Definition toggleInterest (interest : string) (s : State) : State :=
  setFormData (λ prev,
    {| name := name prev; email := email prev; password := password prev;
       interests :=
         if bool_decide (interest ∈ interests prev)
         then filter (λ i, i ≠ interest) (interests prev)
         else interests prev ++ [interest] |}) s.

(** The three fields [updateField] is called on. *)
Inductive Field : Type := FieldName | FieldEmail | FieldPassword.

(** [setFormData(prev => ({ ...prev, [field]: value }))] *)
Definition updateField (field : Field) (value : string) (s : State) : State :=
  setFormData (λ prev,
    match field with
    | FieldName =>
        {| name := value; email := email prev; password := password prev;
           interests := interests prev |}
    | FieldEmail =>
        {| name := name prev; email := value; password := password prev;
           interests := interests prev |}
    | FieldPassword =>
        {| name := name prev; email := email prev; password := value;
           interests := interests prev |}
    end) s.

(** The [disabled] attribute of the Continue button of step 1:
    [!formData.name.trim()]. *)
Definition continue_disabled_1 (d : FormData) : bool :=
  negb (JS.truthy (JS.trim (name d))).

(** The [disabled] attribute of the Continue button of step 2:
    [!formData.email || !formData.password || formData.password.length < 6]. *)
Definition continue_disabled_2 (d : FormData) : bool :=
  negb (JS.truthy (email d)) || negb (JS.truthy (password d))
  || bool_decide (JS.str_length (password d) < 6).

(** The [disabled] attribute of the Sign Up button of step 3:
    [formData.interests.length === 0]. *)
Definition signup_disabled (d : FormData) : bool :=
  bool_decide (length (interests d) = 0%nat).

(** The condition of the hint "Valid email format" under the email input:
    [formData.email && formData.email.includes('@')].  It decides what is
    displayed and nothing else. *)
Definition email_hint (d : FormData) : bool :=
  JS.truthy (email d) && JS.includes (email d) "@".

(** What the user can do.  Each event is a control of the page. *)
Inductive Event : Type :=
| ClickContinue
| ClickBack
| Type_ (field : Field) (value : string)
| ClickEye
| ClickInterest (interest : string)
| ClickSignUp.

(** The effect of an event on the state.  A control exists only on the
    step that renders it ([currentStep === 1 && ...] and so on), and a
    disabled button does not call its handler: in both cases the state
    stays as it is.  The handler of Sign Up is an [alert], which leaves the
    state alone. *)
Definition dispatch (s : State) (e : Event) : State :=
  match e with
  | ClickContinue =>
      if bool_decide (currentStep s = 1) then
        if continue_disabled_1 (formData s) then s else nextStep s
      else if bool_decide (currentStep s = 2) then
        if continue_disabled_2 (formData s) then s else nextStep s
      else s
  | ClickBack =>
      if bool_decide (currentStep s = 2) || bool_decide (currentStep s = 3)
      then prevStep s else s
  | Type_ FieldName value =>
      if bool_decide (currentStep s = 1) then updateField FieldName value s else s
  | Type_ field value =>
      if bool_decide (currentStep s = 2) then updateField field value s else s
  | ClickEye =>
      if bool_decide (currentStep s = 2) then setShowPassword (negb (showPassword s)) s else s
  | ClickInterest interest =>
      if bool_decide (currentStep s = 3) && bool_decide (interest ∈ interests_offered)
      then toggleInterest interest s else s
  | ClickSignUp => s
  end.

Definition run (s : State) (es : list Event) : State := foldl dispatch s es.

(** The hint under the password input, rendered under [formData.password]:
    [formData.password.length >= 6 ? 'Strong password' : 'At least 6
    characters'].  [None]: no hint; [Some true]: "Strong password". *)
Definition password_hint (d : FormData) : option bool :=
  if JS.truthy (password d) then Some (bool_decide (JS.str_length (password d) >= 6))
  else None.

(** What every state reached from [initial] satisfies: the step is in
    range; past step 1 the trimmed name is not empty; on step 3 the email is
    not empty and the password has 6 characters or more; the interests are
    among those offered, each once. *)
Definition invariant (s : State) : Prop :=
  1 <= currentStep s <= 3
  ∧ (2 <= currentStep s → JS.trim (name (formData s)) ≠ ""%string)
  ∧ (currentStep s = 3 →
     email (formData s) ≠ ""%string ∧ 6 <= JS.str_length (password (formData s)))
  ∧ NoDup (interests (formData s))
  ∧ (∀ i, i ∈ interests (formData s) → i ∈ interests_offered).

(** The clicks the page refuses, as the source has them.  Continue: on
    step 3 no Continue button is rendered, and [nextStep] has its own guard
    [currentStep < 3]; on step 1 the button is disabled under
    [!formData.name.trim()]; on step 2 it is disabled under
    [!formData.email || !formData.password || formData.password.length < 6],
    that is with an empty email or a password of fewer than 6 characters
    (an empty password is one).  Back: on step 1 no Back button is rendered,
    and [prevStep] has its own guard [currentStep > 1].  Sign Up: disabled
    under [formData.interests.length === 0]. *)
Inductive Refused : State → Event → Prop :=
| advance_at_last_step s :
    currentStep s = 3 → Refused s ClickContinue
| advance_without_name s :
    currentStep s = 1 →
    JS.trim (name (formData s)) = ""%string →
    Refused s ClickContinue
| advance_without_account s :
    currentStep s = 2 →
    email (formData s) = ""%string ∨ JS.str_length (password (formData s)) < 6 →
    Refused s ClickContinue
| retreat_at_first_step s :
    currentStep s = 1 → Refused s ClickBack
| signup_without_interest s :
    currentStep s = 3 →
    interests (formData s) = [] →
    Refused s ClickSignUp.

End Signup.

(** ** Index.tsx *)

Module Index.

(** [s.split(sep)] for a separator of one character: the pieces between
    the separators, empty pieces included; there is always one piece at
    least. *)
Fixpoint split (sep : ascii) (s : string) : list string :=
  match s with
  | EmptyString => [EmptyString]
  | String c s' =>
      if bool_decide (c = sep) then EmptyString :: split sep s'
      else
        match split sep s' with
        | piece :: pieces => String c piece :: pieces
        | [] => [String c EmptyString]
        end
  end.

(** The titles of [projects]. *)
Definition titles : list string :=
  [ "Mobile Signup Flow"; "Email Template"; "Restaurant Menu"; "E-commerce Store" ]%string.

(** The label of a footer link: [project.title.split(' ')[0]]; [None] is
    [undefined]. *)
Definition footer_label (title : string) : option string :=
  split " "%char title !! 0%nat.

End Index.

(** ** The specification's vocabulary *)

Module Spec.

(** Category facet: passes if the selected category is the sentinel
    ["all"] or is the item's category. *)
Definition category_facet (selectedCategory : string) (item_category : string) : Prop :=
  selectedCategory = "all"%string ∨ item_category = selectedCategory.

(** Range facet: passes if [min <= price <= max]. *)
Definition range_facet (priceRange : Z * Z) (item_price : Z) : Prop :=
  priceRange.1 <= item_price <= priceRange.2.

(** Label facet: passes if no label is selected, or if the item's labels
    and the selected labels have a label in common. *)
Definition label_facet (selectedLabels : list string) (item_labels : list string) : Prop :=
  selectedLabels = [] ∨ ∃ label, label ∈ item_labels ∧ label ∈ selectedLabels.

(** [StableSelection P catalog result]: [result] is made of exactly the
    items of [catalog] that satisfy [P], each as often as in [catalog] and
    in the order of [catalog]. *)
Inductive StableSelection {A : Type} (P : A → Prop) : list A → list A → Prop :=
| selection_nil : StableSelection P [] []
| selection_keep x catalog result :
    P x → StableSelection P catalog result →
    StableSelection P (x :: catalog) (x :: result)
| selection_drop x catalog result :
    ¬ P x → StableSelection P catalog result →
    StableSelection P (x :: catalog) result.

(** The two label sets are equal as sets. *)
Definition same_labels (l1 l2 : list string) : Prop := ∀ label, label ∈ l1 ↔ label ∈ l2.

(** The validator of step "account" as the specification words it: the
    email contains an "@" and the password has at least 6 characters. *)
Definition account_valid (email password : string) : Prop :=
  JS.includes email "@" = true ∧ 6 <= JS.str_length password.

(** A product with its badge replaced: [badge_of] gives the new badge. *)
Definition rebadge (badge_of : Ecommerce.Product → option string)
    (p : Ecommerce.Product) : Ecommerce.Product :=
  {| Ecommerce.id := Ecommerce.id p; Ecommerce.name := Ecommerce.name p;
     Ecommerce.price := Ecommerce.price p;
     Ecommerce.originalPrice := Ecommerce.originalPrice p;
     Ecommerce.category := Ecommerce.category p;
     Ecommerce.badge := badge_of p |}.

End Spec.

(** * Properties *)

(** ** Stable selections *)

Section StableSelection.
Context {A : Type}.
Implicit Types (P Q : A → Prop) (l r : list A).

Lemma filter_StableSelection P `{!∀ x, Decision (P x)} l :
  Spec.StableSelection P l (filter P l).
Proof.
  induction l as [|x l IH]; [constructor|].
  destruct (decide (P x)) as [HP|HP].
  - rewrite filter_cons_True by done. by constructor.
  - rewrite filter_cons_False by done. by constructor.
Qed.

Lemma StableSelection_unique P l r1 r2 :
  Spec.StableSelection P l r1 → Spec.StableSelection P l r2 → r1 = r2.
Proof.
  intros H1. revert r2.
  induction H1 as [|x l r1 HP _ IH|x l r1 HP _ IH]; intros r2 H2.
  - by inversion H2.
  - inversion H2; subst; [f_equal; auto | contradiction].
  - inversion H2; subst; [contradiction | auto].
Qed.

Lemma StableSelection_iff P Q l r :
  (∀ x, P x ↔ Q x) → Spec.StableSelection P l r → Spec.StableSelection Q l r.
Proof.
  intros HPQ. induction 1 as [|x l r HP _ IH|x l r HP _ IH].
  - constructor.
  - constructor; [by apply HPQ | done].
  - apply Spec.selection_drop; [by rewrite <- HPQ | done].
Qed.

Lemma StableSelection_sublist P l r : Spec.StableSelection P l r → r `sublist_of` l.
Proof.
  induction 1; [constructor | by apply sublist_skip | by apply sublist_cons].
Qed.

Lemma StableSelection_elem_of P l r x :
  Spec.StableSelection P l r → x ∈ r ↔ x ∈ l ∧ P x.
Proof.
  induction 1 as [|y l r HP _ IH|y l r HP _ IH].
  - split; [by intros ?%elem_of_nil | by intros [?%elem_of_nil _]].
  - rewrite !elem_of_cons, IH. split.
    + intros [->|[Hl HPx]]; [split; [by left | done] | split; [by right | done]].
    + intros [[->|Hl] HPx]; [by left | by right].
  - rewrite elem_of_cons, IH. split.
    + intros [Hl HPx]. split; [by right | done].
    + intros [[->|Hl] HPx]; [contradiction | done].
Qed.

End StableSelection.

(** ** The product evaluator *)

Lemma filteredProducts_facets (catalog : list Ecommerce.Product) selectedCategory priceRange :
  Spec.StableSelection
    (λ p, Spec.category_facet selectedCategory (Ecommerce.category p)
          ∧ Spec.range_facet priceRange (Ecommerce.price p))
    catalog (Ecommerce.filteredProducts catalog selectedCategory priceRange).
Proof.
  eapply StableSelection_iff; [|apply filter_StableSelection].
  intros p. unfold Spec.category_facet, Spec.range_facet. simpl.
  split; intros (Hcat & Hrange); (split; [exact Hcat | lia]).
Qed.

(** ** The menu evaluator *)

Lemma shown_label_facet selectedFilters item :
  Menu.shown selectedFilters item ↔ Spec.label_facet selectedFilters (Menu.tags item).
Proof.
  unfold Menu.shown, Spec.label_facet. rewrite Exists_exists.
  split.
  - intros [Hlen|(f & Hsel & Htag)]; [left; by apply nil_length_inv | right; eauto].
  - intros [->|(f & Htag & Hsel)]; [by left | right; eauto].
Qed.

Lemma filteredItems_own_key (menuItems : gmap string (list Menu.MenuItem))
    activeCategory selectedFilters items :
  menuItems !! activeCategory = Some items →
  Menu.filteredItems menuItems activeCategory selectedFilters
  = JS.Normal (filter (Menu.shown selectedFilters) items).
Proof. intros Hown. unfold Menu.filteredItems, Menu.get. by rewrite Hown. Qed.

Lemma filteredItems_missing_key (menuItems : gmap string (list Menu.MenuItem))
    activeCategory selectedFilters :
  menuItems !! activeCategory = None →
  activeCategory ∉ JS.object_prototype_keys →
  Menu.filteredItems menuItems activeCategory selectedFilters = JS.Normal [].
Proof.
  intros Hown Hproto. unfold Menu.filteredItems, Menu.get. rewrite Hown.
  by rewrite bool_decide_eq_false_2.
Qed.

Lemma filteredItems_inherited_key (menuItems : gmap string (list Menu.MenuItem))
    activeCategory selectedFilters :
  menuItems !! activeCategory = None →
  activeCategory ∈ JS.object_prototype_keys →
  Menu.filteredItems menuItems activeCategory selectedFilters = JS.TypeError.
Proof.
  intros Hown Hproto. unfold Menu.filteredItems, Menu.get. rewrite Hown.
  by rewrite bool_decide_eq_true_2.
Qed.

Lemma filter_Forall_id {A : Type} (P : A → Prop) `{!∀ x, Decision (P x)} (l : list A) :
  Forall P l → filter P l = l.
Proof.
  induction 1 as [|x l HP _ IH]; [done|].
  rewrite filter_cons_True by done. by rewrite IH.
Qed.

(** ** C1: the evaluators are stable filters *)

(** C1, as stated, fails on the menu evaluator: the menu has no ["all"]
    sentinel.  With [activeCategory = "all"] and no label selected, every
    item of the menu passes the category facet and the label facet as the
    claim words them, and the evaluator returns the empty list: the key
    ["all"] is looked up like any other and is missing. *)
Lemma menu_evaluator_has_no_all_sentinel :
  ¬ (∀ (menuItems : gmap string (list Menu.MenuItem))
       (activeCategory : string) (selectedFilters : list string)
       (category : string) (items : list Menu.MenuItem) (item : Menu.MenuItem),
       menuItems !! category = Some items → item ∈ items →
       Spec.category_facet activeCategory category →
       Spec.label_facet selectedFilters (Menu.tags item) →
       ∃ r, Menu.filteredItems menuItems activeCategory selectedFilters = JS.Normal r
            ∧ item ∈ r).
Proof.
  intros Hclaim.
  destruct (Hclaim Menu.menuItems "all"%string [] "mains"%string Menu.mains
              {| Menu.id := 4; Menu.name := "Wagyu Ribeye"; Menu.price := "$65";
                 Menu.tags := ["popular"%string] |})
    as (r & Hr & Hin).
  - reflexivity.
  - apply list_elem_of_here.
  - by left.
  - by left.
  - vm_compute in Hr. injection Hr as <-. by apply elem_of_nil in Hin.
Qed.

(** C1, amended.  The product evaluator returns exactly the products of the
    catalog that pass the category facet (the selected category is ["all"]
    or is the product's category) and the range facet
    ([min <= price <= max]), in the order of the catalog.  The menu
    evaluator has no ["all"] sentinel: for an [activeCategory] that is a key
    of the menu it returns exactly the items listed under that key that pass
    the label facet, in the order of that list. *)
Theorem evaluators_are_stable_filters
    (catalog : list Ecommerce.Product) (selectedCategory : string) (priceRange : Z * Z)
    (menuItems : gmap string (list Menu.MenuItem))
    (activeCategory : string) (selectedFilters : list string)
    (items : list Menu.MenuItem) :
  menuItems !! activeCategory = Some items →
  Spec.StableSelection
    (λ p, Spec.category_facet selectedCategory (Ecommerce.category p)
          ∧ Spec.range_facet priceRange (Ecommerce.price p))
    catalog (Ecommerce.filteredProducts catalog selectedCategory priceRange)
  ∧ ∃ r, Menu.filteredItems menuItems activeCategory selectedFilters = JS.Normal r
         ∧ Spec.StableSelection
             (λ item, Spec.label_facet selectedFilters (Menu.tags item)) items r.
Proof.
  intros Hown. split; [apply filteredProducts_facets|].
  eexists. split; [by apply filteredItems_own_key|].
  eapply StableSelection_iff; [apply shown_label_facet | apply filter_StableSelection].
Qed.

Lemma evaluators_are_stable_filters_witness :
  Spec.StableSelection
    (λ p, Spec.category_facet "clothing" (Ecommerce.category p)
          ∧ Spec.range_facet (0, 500) (Ecommerce.price p))
    Ecommerce.products (Ecommerce.filteredProducts Ecommerce.products "clothing" (0, 500))
  ∧ ∃ r, Menu.filteredItems Menu.menuItems "mains" ["vegetarian"%string] = JS.Normal r
         ∧ Spec.StableSelection
             (λ item, Spec.label_facet ["vegetarian"%string] (Menu.tags item)) Menu.mains r.
Proof.
  apply (evaluators_are_stable_filters Ecommerce.products "clothing" (0, 500)
           Menu.menuItems "mains" ["vegetarian"%string] Menu.mains).
  reflexivity.
Defined.

(** ** C2: the label facet is an ANY-match *)

(** C2, as stated, fails together with C1: the menu has no ["all"]
    sentinel.  With [activeCategory = "all"] and the label "popular"
    selected, the item "Wagyu Ribeye" is in the menu, passes the category
    facet as the claim words it and carries a selected label, and it is left
    out: the evaluator returns the empty list. *)
Lemma menu_all_omits_a_matching_item :
  ¬ (∀ (menuItems : gmap string (list Menu.MenuItem))
       (activeCategory : string) (selectedFilters : list string)
       (category : string) (items : list Menu.MenuItem) (item : Menu.MenuItem),
       menuItems !! category = Some items → item ∈ items →
       Spec.category_facet activeCategory category →
       selectedFilters ≠ [] →
       (∃ label, label ∈ Menu.tags item ∧ label ∈ selectedFilters) →
       ∃ r, Menu.filteredItems menuItems activeCategory selectedFilters = JS.Normal r
            ∧ item ∈ r).
Proof.
  intros Hclaim.
  destruct (Hclaim Menu.menuItems "all"%string ["popular"%string] "mains"%string
              Menu.mains
              {| Menu.id := 4; Menu.name := "Wagyu Ribeye"; Menu.price := "$65";
                 Menu.tags := ["popular"%string] |})
    as (r & Hr & Hin).
  - reflexivity.
  - apply list_elem_of_here.
  - by left.
  - done.
  - exists "popular"%string. split; apply list_elem_of_here.
  - vm_compute in Hr. injection Hr as <-. by apply elem_of_nil in Hin.
Qed.

(** C2, amended.  For every menu, every [activeCategory] that is a key of it
    (the menu has no ["all"] sentinel) and every list of selected labels, the evaluator returns a list [r] of items
    of that category, in their order, such that: with no label selected [r]
    is the whole category; with labels selected, an item is in [r] if and
    only if it is in the category and carries at least one selected label.
    So nothing from outside the category appears and nothing that passes is
    left out. *)
Theorem label_facet_is_any_match
    (menuItems : gmap string (list Menu.MenuItem))
    (activeCategory : string) (selectedFilters : list string)
    (items : list Menu.MenuItem) :
  menuItems !! activeCategory = Some items →
  ∃ r, Menu.filteredItems menuItems activeCategory selectedFilters = JS.Normal r
       ∧ (selectedFilters = [] → r = items)
       ∧ (selectedFilters ≠ [] →
          ∀ item, item ∈ r ↔
                  item ∈ items
                  ∧ ∃ label, label ∈ Menu.tags item ∧ label ∈ selectedFilters)
       ∧ r `sublist_of` items.
Proof.
  intros Hown. eexists. split; [by apply filteredItems_own_key|].
  split; [|split].
  - intros ->. apply filter_Forall_id, Forall_forall. intros item _. by left.
  - intros Hsel item. rewrite list_elem_of_filter, shown_label_facet.
    unfold Spec.label_facet. split.
    + intros [[Hnil|Hany] Hin]; [contradiction | done].
    + intros [Hin Hany]. split; [by right | done].
  - apply sublist_filter.
Qed.

Lemma label_facet_is_any_match_witness :
  ∃ r, Menu.filteredItems Menu.menuItems "appetizers" ["vegetarian"; "spicy"]%string
       = JS.Normal r
       ∧ (["vegetarian"; "spicy"]%string = [] → r = Menu.appetizers)
       ∧ (["vegetarian"; "spicy"]%string ≠ [] →
          ∀ item, item ∈ r ↔
                  item ∈ Menu.appetizers
                  ∧ ∃ label, label ∈ Menu.tags item
                             ∧ label ∈ ["vegetarian"; "spicy"]%string)
       ∧ r `sublist_of` Menu.appetizers.
Proof.
  apply (label_facet_is_any_match Menu.menuItems "appetizers"
           ["vegetarian"; "spicy"]%string Menu.appetizers).
  reflexivity.
Defined.

(** ** C8: the product evaluator has no label facet *)

(** C8, as stated, fails: the page has no selected-labels state and
    [filteredProducts] reads the category and the price only; the [badge] of
    a product is displayed and never filtered on.  With
    [selectedCategory = "all"] no price range makes the evaluator return the
    two products badged "Sale": a range that lets 45 and 89 through lets 85
    through. *)
Lemma product_evaluator_never_selects_the_sale_items :
  ¬ ∃ priceRange : Z * Z,
      Ecommerce.filteredProducts Ecommerce.products "all" priceRange
      = filter (λ p, Ecommerce.badge p = Some "Sale"%string) Ecommerce.products.
Proof.
  intros [[lo hi] Heq].
  set (shirt := {| Ecommerce.id := 1; Ecommerce.name := "Premium Cotton T-Shirt";
                   Ecommerce.price := 45; Ecommerce.originalPrice := Some 65;
                   Ecommerce.category := "clothing";
                   Ecommerce.badge := Some "Sale"%string |}).
  set (sneakers := {| Ecommerce.id := 3; Ecommerce.name := "Classic Sneakers";
                      Ecommerce.price := 85; Ecommerce.originalPrice := Some 110;
                      Ecommerce.category := "shoes";
                      Ecommerce.badge := Some "Popular"%string |}).
  set (jacket := {| Ecommerce.id := 5; Ecommerce.name := "Denim Jacket";
                    Ecommerce.price := 89; Ecommerce.originalPrice := Some 120;
                    Ecommerce.category := "clothing";
                    Ecommerce.badge := Some "Sale"%string |}).
  assert (Hshirt : shirt ∈ Ecommerce.filteredProducts Ecommerce.products "all" (lo, hi)).
  { rewrite Heq. apply (bool_decide_unpack _). by vm_compute. }
  assert (Hjacket : jacket ∈ Ecommerce.filteredProducts Ecommerce.products "all" (lo, hi)).
  { rewrite Heq. apply (bool_decide_unpack _). by vm_compute. }
  apply list_elem_of_filter in Hshirt as [(_ & Hlo & _) _].
  apply list_elem_of_filter in Hjacket as [(_ & _ & Hhi) _].
  simpl in Hlo, Hhi.
  assert (Hsneakers : sneakers ∈ Ecommerce.filteredProducts Ecommerce.products "all" (lo, hi)).
  { apply list_elem_of_filter. split.
    - split; [by left | simpl; lia].
    - apply (bool_decide_unpack _). by vm_compute. }
  rewrite Heq in Hsneakers.
  revert Hsneakers. apply (bool_decide_unpack _). by vm_compute.
Qed.

Lemma filteredProducts_elem_of (catalog : list Ecommerce.Product)
    (selectedCategory : string) (priceRange : Z * Z) (p : Ecommerce.Product) :
  p ∈ Ecommerce.filteredProducts catalog selectedCategory priceRange
  ↔ p ∈ catalog
    ∧ Spec.category_facet selectedCategory (Ecommerce.category p)
    ∧ Spec.range_facet priceRange (Ecommerce.price p).
Proof.
  rewrite (StableSelection_elem_of _ _ _ p
             (filteredProducts_facets catalog selectedCategory priceRange)).
  tauto.
Qed.

Lemma filteredProducts_rebadge (badge_of : Ecommerce.Product → option string)
    (catalog : list Ecommerce.Product) (selectedCategory : string) (priceRange : Z * Z) :
  Ecommerce.filteredProducts (Spec.rebadge badge_of <$> catalog) selectedCategory priceRange
  = Spec.rebadge badge_of <$> Ecommerce.filteredProducts catalog selectedCategory priceRange.
Proof.
  unfold Ecommerce.filteredProducts.
  induction catalog as [|p catalog IH]; [done|].
  rewrite fmap_cons, !filter_cons, IH. simpl.
  by destruct (decide _).
Qed.

(** C8, amended.  The product evaluator has no label facet: whether a
    product is in its result is decided by the category and the price of the
    product alone, and replacing the badges of the catalog by any others
    changes nothing in the result but those badges.  On the sample catalog
    of 6 products, with [selectedCategory = "all"] and the initial price
    range [(0, 500)], it returns all 6 products in their order.  Two of the
    six, those of ids 1 and 5, carry the badge "Sale", which is only
    displayed. *)
Theorem product_evaluator_ignores_badges
    (catalog : list Ecommerce.Product) (selectedCategory : string) (priceRange : Z * Z)
    (badge_of : Ecommerce.Product → option string) :
  (∀ p, p ∈ Ecommerce.filteredProducts catalog selectedCategory priceRange
        ↔ p ∈ catalog
          ∧ Spec.category_facet selectedCategory (Ecommerce.category p)
          ∧ Spec.range_facet priceRange (Ecommerce.price p))
  ∧ Ecommerce.filteredProducts (Spec.rebadge badge_of <$> catalog)
      selectedCategory priceRange
    = Spec.rebadge badge_of
        <$> Ecommerce.filteredProducts catalog selectedCategory priceRange
  ∧ Ecommerce.filteredProducts Ecommerce.products
      (Ecommerce.selectedCategory Ecommerce.initial)
      (Ecommerce.priceRange Ecommerce.initial)
    = Ecommerce.products
  ∧ length Ecommerce.products = 6%nat
  ∧ Ecommerce.id <$> filter (λ p, Ecommerce.badge p = Some "Sale"%string) Ecommerce.products
    = [1; 5].
Proof.
  split; [intros p; apply filteredProducts_elem_of|].
  split; [apply filteredProducts_rebadge|].
  split; [|split]; by vm_compute.
Qed.

(** ** C9: no category and no label selected *)

(** C9, as stated, fails: the price range is a facet of its own.  On the
    sample catalog, ["all"] with the range [(0, 100)], which the slider
    reaches, leaves out the products above 100. *)
Lemma all_category_is_not_the_identity :
  ¬ (∀ (catalog : list Ecommerce.Product) (priceRange : Z * Z),
       Ecommerce.filteredProducts catalog "all" priceRange = catalog).
Proof.
  intros Hclaim. specialize (Hclaim Ecommerce.products (0, 100)).
  apply (f_equal length) in Hclaim. vm_compute in Hclaim. discriminate.
Qed.

(** C9, amended.  For every catalog and every state whose selected category
    is ["all"] and whose price range contains the price of every item of the
    catalog, the product evaluator returns the catalog itself. *)
Theorem all_category_full_range_is_the_identity
    (catalog : list Ecommerce.Product) (priceRange : Z * Z) :
  Forall (λ p, Spec.range_facet priceRange (Ecommerce.price p)) catalog →
  Ecommerce.filteredProducts catalog "all" priceRange = catalog.
Proof.
  intros Hrange. apply filter_Forall_id.
  eapply Forall_impl; [exact Hrange|].
  intros p [Hlo Hhi]. split; [by left | simpl; lia].
Qed.

Lemma all_category_full_range_is_the_identity_witness :
  Ecommerce.filteredProducts Ecommerce.products "all" (0, 500) = Ecommerce.products.
Proof.
  apply (all_category_full_range_is_the_identity Ecommerce.products (0, 500)).
  unfold Ecommerce.products, Spec.range_facet.
  repeat (apply Forall_cons; split; [simpl; lia|]). apply Forall_nil_2.
Defined.

(** ** C10: categories that are not keys of the menu *)

Lemma menu_tabs_dispatch (s : Menu.State) (e : Menu.Event) :
  Menu.available e →
  Menu.activeCategory s ∈ Menu.categories →
  Menu.activeCategory (Menu.dispatch s e) ∈ Menu.categories.
Proof. intros He Hcat. by destruct e. Qed.

Lemma menu_run_tabs (es : list Menu.Event) :
  Forall Menu.available es →
  Menu.activeCategory (Menu.run Menu.initial es) ∈ Menu.categories.
Proof.
  intros Hes. induction es as [|e es IH] using rev_ind.
  - by left.
  - apply Forall_app in Hes as [Hes [He _]%Forall_cons].
    unfold Menu.run. rewrite foldl_app. simpl.
    apply menu_tabs_dispatch; [done | by apply IH].
Qed.

Lemma sample_menu_has_the_tabs :
  Forall (λ id, is_Some (Menu.menuItems !! id)) Menu.categories.
Proof. apply (bool_decide_unpack _). by vm_compute. Qed.

(** C10, as stated, fails: the optional access stops at [undefined] only.
    ["constructor"] is not a key of the sample menu, and the lookup finds
    the function every object inherits under that name; [filter] is then
    read on it and called, and the evaluation throws a [TypeError] instead
    of returning the empty list. *)
Lemma inherited_key_is_not_guarded :
  ¬ (∀ (activeCategory : string) (selectedFilters : list string),
       Menu.menuItems !! activeCategory = None →
       Menu.filteredItems Menu.menuItems activeCategory selectedFilters = JS.Normal []).
Proof.
  intros Hclaim. specialize (Hclaim "constructor"%string [] eq_refl).
  vm_compute in Hclaim. discriminate.
Qed.

(** C10, amended.  For every menu and every [activeCategory] that is
    neither a key of the menu nor a property name inherited from
    [Object.prototype], the evaluator returns the empty list rather than
    failing.  The page sets [activeCategory] from its four tabs only: in
    every state it reaches, the evaluation on the sample menu returns
    normally. *)
Theorem menu_evaluator_outside_the_keys
    (menuItems : gmap string (list Menu.MenuItem))
    (activeCategory : string) (selectedFilters : list string)
    (es : list Menu.Event) :
  menuItems !! activeCategory = None →
  activeCategory ∉ JS.object_prototype_keys →
  Forall Menu.available es →
  Menu.filteredItems menuItems activeCategory selectedFilters = JS.Normal []
  ∧ ∃ r, Menu.filteredItems Menu.menuItems
           (Menu.activeCategory (Menu.run Menu.initial es))
           (Menu.selectedFilters (Menu.run Menu.initial es)) = JS.Normal r.
Proof.
  intros Hmissing Hproto Hes. split; [by apply filteredItems_missing_key|].
  destruct (proj1 (Forall_forall _ _) sample_menu_has_the_tabs _ (menu_run_tabs es Hes))
    as [items Hown].
  eexists. by apply filteredItems_own_key.
Qed.

Lemma menu_evaluator_outside_the_keys_witness :
  Menu.filteredItems Menu.menuItems "all" ["spicy"%string] = JS.Normal []
  ∧ ∃ r, Menu.filteredItems Menu.menuItems
           (Menu.activeCategory
              (Menu.run Menu.initial [Menu.ClickTab "desserts"; Menu.ClickChip "popular"]))
           (Menu.selectedFilters
              (Menu.run Menu.initial [Menu.ClickTab "desserts"; Menu.ClickChip "popular"]))
         = JS.Normal r.
Proof.
  apply (menu_evaluator_outside_the_keys Menu.menuItems "all" ["spicy"%string]
           [Menu.ClickTab "desserts"; Menu.ClickChip "popular"]).
  - reflexivity.
  - apply (bool_decide_unpack _). by vm_compute.
  - repeat (apply Forall_cons; split; [apply (bool_decide_unpack _); by vm_compute|]).
    apply Forall_nil_2.
Defined.

(** ** The carousel *)

Section Carousel.
Variable heroSlides : list Ecommerce.HeroSlide.
Let N : Z := Z.of_nat (length heroSlides).
Hypothesis at_least_one_slide : 1 <= N.

Lemma nextSlide_mod p : 0 <= p → Ecommerce.nextSlide heroSlides p = (p + 1) `mod` N.
Proof.
  intros Hp. unfold Ecommerce.nextSlide, JS.remainder. fold N.
  apply Z.rem_mod_nonneg; lia.
Qed.

Lemma prevSlide_mod p : 0 <= p → Ecommerce.prevSlide heroSlides p = (p - 1 + N) `mod` N.
Proof.
  intros Hp. unfold Ecommerce.prevSlide, JS.remainder. fold N.
  apply Z.rem_mod_nonneg; lia.
Qed.

Lemma nextSlide_in_range p : 0 <= p → 0 <= Ecommerce.nextSlide heroSlides p < N.
Proof. intros Hp. rewrite nextSlide_mod by done. apply Z.mod_pos_bound. lia. Qed.

Lemma prevSlide_in_range p : 0 <= p → 0 <= Ecommerce.prevSlide heroSlides p < N.
Proof. intros Hp. rewrite prevSlide_mod by done. apply Z.mod_pos_bound. lia. Qed.

Lemma prevSlide_nextSlide p :
  0 <= p < N → Ecommerce.prevSlide heroSlides (Ecommerce.nextSlide heroSlides p) = p.
Proof.
  intros Hp. rewrite prevSlide_mod by (apply nextSlide_in_range; lia).
  rewrite nextSlide_mod by lia.
  destruct (decide (p + 1 = N)) as [Heq|Hne].
  - rewrite Heq, Z_mod_same_full.
    replace (0 - 1 + N) with p by lia. apply Z.mod_small. lia.
  - rewrite (Z.mod_small (p + 1)) by lia.
    replace (p + 1 - 1 + N) with (p + 1 * N) by lia.
    rewrite Z_mod_plus_full. apply Z.mod_small. lia.
Qed.

Lemma nextSlide_prevSlide p :
  0 <= p < N → Ecommerce.nextSlide heroSlides (Ecommerce.prevSlide heroSlides p) = p.
Proof.
  intros Hp. rewrite nextSlide_mod by (apply prevSlide_in_range; lia).
  rewrite prevSlide_mod by lia.
  destruct (decide (p = 0)) as [->|Hne].
  - rewrite (Z.mod_small (0 - 1 + N)) by lia.
    replace (0 - 1 + N + 1) with N by lia. apply Z_mod_same_full.
  - replace (p - 1 + N) with (p - 1 + 1 * N) by lia.
    rewrite Z_mod_plus_full, (Z.mod_small (p - 1)) by lia.
    replace (p - 1 + 1) with p by lia. apply Z.mod_small. lia.
Qed.

Lemma nextSlide_iter (k : nat) p :
  0 <= p < N →
  Nat.iter k (Ecommerce.nextSlide heroSlides) p = (p + Z.of_nat k) `mod` N.
Proof.
  intros Hp. induction k as [|k IH].
  - simpl. rewrite Z.add_0_r. symmetry. apply Z.mod_small. lia.
  - rewrite Nat.iter_succ, IH.
    rewrite nextSlide_mod by (apply Z.mod_pos_bound; lia).
    rewrite Zplus_mod_idemp_l. f_equal. lia.
Qed.

Lemma carousel_step_in_range position e :
  0 <= position < N → Ecommerce.rendered heroSlides e →
  0 <= Ecommerce.carousel_step heroSlides position e < N.
Proof.
  intros Hp He. destruct e as [| |index]; simpl.
  - apply nextSlide_in_range. lia.
  - apply prevSlide_in_range. lia.
  - exact He.
Qed.

Lemma carousel_run_in_range es : ∀ position,
  0 <= position < N → Forall (Ecommerce.rendered heroSlides) es →
  0 <= Ecommerce.carousel_run heroSlides position es < N.
Proof.
  unfold Ecommerce.carousel_run.
  induction es as [|e es IH]; intros position Hp Hes; [done|].
  apply Forall_cons in Hes as [He Hes]. simpl.
  apply IH; [by apply carousel_step_in_range | done].
Qed.

End Carousel.

(** ** The wizard *)

Lemma dispatch_step_in_range (s : Signup.State) (e : Signup.Event) :
  1 <= Signup.currentStep s <= 3 → 1 <= Signup.currentStep (Signup.dispatch s e) <= 3.
Proof.
  intros Hs.
  destruct e as [| |[| |] value| |interest|]; unfold Signup.dispatch;
    unfold Signup.nextStep, Signup.prevStep;
    repeat (case_bool_decide || case_match); simpl in *; lia.
Qed.

Lemma run_step_in_range (es : list Signup.Event) : ∀ s : Signup.State,
  1 <= Signup.currentStep s <= 3 → 1 <= Signup.currentStep (Signup.run s es) <= 3.
Proof.
  unfold Signup.run.
  induction es as [|e es IH]; intros s Hs; [done|].
  simpl. by apply IH, dispatch_step_in_range.
Qed.

(** ** C4: the cursor stays in its range *)

(** C4.  Starting from slide 0, every sequence of clicks on the arrows and
    on the indicator buttons that the page renders (one per slide) leaves
    the carousel on a slide in [[0, N-1]], where [N >= 1] is the number of
    slides; starting from step 1, every sequence of events of the wizard
    leaves it on a step in [[1, 3]]. *)
Theorem cursors_stay_in_range
    (heroSlides : list Ecommerce.HeroSlide) (clicks : list Ecommerce.CarouselEvent)
    (events : list Signup.Event) :
  1 <= Z.of_nat (length heroSlides) →
  Forall (Ecommerce.rendered heroSlides) clicks →
  0 <= Ecommerce.carousel_run heroSlides (Ecommerce.currentSlide Ecommerce.initial) clicks
    < Z.of_nat (length heroSlides)
  ∧ 1 <= Signup.currentStep (Signup.run Signup.initial events) <= 3.
Proof.
  intros HN Hclicks. split.
  - apply carousel_run_in_range; [done | simpl; lia | done].
  - apply run_step_in_range. simpl. lia.
Qed.

Lemma cursors_stay_in_range_witness :
  0 <= Ecommerce.carousel_run Ecommerce.heroSlides
         (Ecommerce.currentSlide Ecommerce.initial)
         [Ecommerce.ClickPrev; Ecommerce.ClickIndicator 1; Ecommerce.ClickNext;
          Ecommerce.ClickNext]
    < Z.of_nat (length Ecommerce.heroSlides)
  ∧ 1 <= Signup.currentStep
           (Signup.run Signup.initial
              [Signup.ClickBack; Signup.Type_ Signup.FieldName "Jane";
               Signup.ClickContinue; Signup.ClickContinue; Signup.ClickBack]) <= 3.
Proof.
  apply (cursors_stay_in_range Ecommerce.heroSlides
           [Ecommerce.ClickPrev; Ecommerce.ClickIndicator 1; Ecommerce.ClickNext;
            Ecommerce.ClickNext]).
  - simpl. lia.
  - repeat (apply Forall_cons; split; [simpl; try lia; exact I|]). apply Forall_nil_2.
Defined.

(** ** C5: the carousel is cyclic *)

(** C5.  For every [N >= 1] slides and every position [p] in [[0, N-1]]:
    [N] calls of [nextSlide] bring the carousel back to [p], and [prevSlide]
    and [nextSlide] undo each other. *)
Theorem carousel_is_cyclic (heroSlides : list Ecommerce.HeroSlide) (p : Z) :
  1 <= Z.of_nat (length heroSlides) →
  0 <= p < Z.of_nat (length heroSlides) →
  Nat.iter (length heroSlides) (Ecommerce.nextSlide heroSlides) p = p
  ∧ Ecommerce.prevSlide heroSlides (Ecommerce.nextSlide heroSlides p) = p
  ∧ Ecommerce.nextSlide heroSlides (Ecommerce.prevSlide heroSlides p) = p.
Proof.
  intros HN Hp. split; [|split].
  - rewrite nextSlide_iter by done.
    replace (p + Z.of_nat (length heroSlides))
      with (p + 1 * Z.of_nat (length heroSlides)) by lia.
    rewrite Z_mod_plus_full. apply Z.mod_small. lia.
  - by apply prevSlide_nextSlide.
  - by apply nextSlide_prevSlide.
Qed.

Lemma carousel_is_cyclic_witness :
  Nat.iter (length Ecommerce.heroSlides) (Ecommerce.nextSlide Ecommerce.heroSlides) 2 = 2
  ∧ Ecommerce.prevSlide Ecommerce.heroSlides (Ecommerce.nextSlide Ecommerce.heroSlides 2) = 2
  ∧ Ecommerce.nextSlide Ecommerce.heroSlides (Ecommerce.prevSlide Ecommerce.heroSlides 2) = 2.
Proof.
  apply (carousel_is_cyclic Ecommerce.heroSlides 2); simpl; lia.
Defined.

(** ** The gates of the wizard *)

Lemma truthy_nonempty (s : string) : JS.truthy s = true ↔ s ≠ ""%string.
Proof. destruct s; simpl; split; congruence. Qed.

Lemma str_length_empty (s : string) : JS.str_length s < 1 → s = ""%string.
Proof. destruct s; [done|]. unfold JS.str_length. simpl. lia. Qed.

Lemma continue_disabled_2_false (d : Signup.FormData) :
  Signup.continue_disabled_2 d = false
  ↔ Signup.email d ≠ ""%string ∧ 6 <= JS.str_length (Signup.password d).
Proof.
  unfold Signup.continue_disabled_2.
  rewrite !orb_false_iff, !negb_false_iff, !truthy_nonempty, bool_decide_eq_false.
  split.
  - intros [[Hemail _] Hlen]. split; [done | lia].
  - intros [Hemail Hlen]. split; [split; [done|] | lia].
    intros Hpw. rewrite Hpw in Hlen. unfold JS.str_length in Hlen. simpl in Hlen. lia.
Qed.

Lemma dispatch_continue_account (s : Signup.State) :
  Signup.currentStep s = 2 →
  Signup.dispatch s Signup.ClickContinue
  = if Signup.continue_disabled_2 (Signup.formData s) then s
    else Signup.setCurrentStep 3 s.
Proof.
  intros Hs. unfold Signup.dispatch, Signup.nextStep. rewrite Hs. simpl.
  by destruct (Signup.continue_disabled_2 _).
Qed.

Lemma setCurrentStep_moves (s : Signup.State) (n : Z) :
  Signup.currentStep s ≠ n → Signup.setCurrentStep n s ≠ s.
Proof. intros Hne Heq. apply Hne. by rewrite <- Heq at 1. Qed.

(** ** C3: the gate of step "account" *)

(** C3, as stated, fails: the Continue button of step 2 is disabled by
    [!formData.email || !formData.password || formData.password.length < 6],
    which asks for an email that is not empty and does not look for an "@".
    With the email "jane" and the password "secret" the wizard moves to
    step 3. *)
Lemma account_gate_does_not_look_for_at_sign :
  ¬ (∀ s : Signup.State,
       Signup.currentStep s = 2 →
       (Signup.dispatch s Signup.ClickContinue = Signup.setCurrentStep 3 s
        ↔ Spec.account_valid (Signup.email (Signup.formData s))
                             (Signup.password (Signup.formData s)))).
Proof.
  intros Hclaim.
  destruct (Hclaim {| Signup.currentStep := 2; Signup.showPassword := false;
                      Signup.formData :=
                        {| Signup.name := "Jane"; Signup.email := "jane";
                           Signup.password := "secret"; Signup.interests := [] |} |}
              eq_refl) as [Hvalid _].
  destruct (Hvalid eq_refl) as [Hat _]. vm_compute in Hat. discriminate.
Qed.

(** C3, amended.  For every state of the wizard on step "account", a click
    on Continue moves the wizard from step 2 to step 3 if and only if the
    email field is not empty and the password has at least 6 characters;
    otherwise the click changes nothing.  In particular, with the email
    "jane@example.com", a password of length 4 is refused and a password of
    length 6 moves the wizard to step 3. *)
Theorem account_gate (s : Signup.State) :
  Signup.currentStep s = 2 →
  (Signup.dispatch s Signup.ClickContinue = Signup.setCurrentStep 3 s
   ↔ Signup.email (Signup.formData s) ≠ ""%string
     ∧ 6 <= JS.str_length (Signup.password (Signup.formData s)))
  ∧ (Signup.dispatch s Signup.ClickContinue = s
     ↔ ¬ (Signup.email (Signup.formData s) ≠ ""%string
          ∧ 6 <= JS.str_length (Signup.password (Signup.formData s))))
  ∧ (Signup.email (Signup.formData s) = "jane@example.com"%string →
     JS.str_length (Signup.password (Signup.formData s)) = 4 →
     Signup.dispatch s Signup.ClickContinue = s)
  ∧ (Signup.email (Signup.formData s) = "jane@example.com"%string →
     JS.str_length (Signup.password (Signup.formData s)) = 6 →
     Signup.dispatch s Signup.ClickContinue = Signup.setCurrentStep 3 s).
Proof.
  intros Hs. rewrite dispatch_continue_account by done.
  pose proof (continue_disabled_2_false (Signup.formData s)) as Hgate.
  pose proof (setCurrentStep_moves s 3 ltac:(lia)) as Hmoves.
  destruct (Signup.continue_disabled_2 (Signup.formData s)).
  - assert (Hno : ¬ (Signup.email (Signup.formData s) ≠ ""%string
                     ∧ 6 <= JS.str_length (Signup.password (Signup.formData s)))).
    { intros Hyes. apply Hgate in Hyes. discriminate. }
    split; [|split; [|split]].
    + split; [intros Heq; by destruct Hmoves | intros Hyes; by destruct Hno].
    + done.
    + done.
    + intros Hemail Hlen. destruct Hno. rewrite Hemail, Hlen. split; [done | lia].
  - assert (Hyes : Signup.email (Signup.formData s) ≠ ""%string
                   ∧ 6 <= JS.str_length (Signup.password (Signup.formData s))).
    { by apply Hgate. }
    split; [|split; [|split]].
    + done.
    + split; [intros Heq; by destruct Hmoves | intros Hno; by destruct Hno].
    + intros _ Hlen. lia.
    + done.
Qed.

Lemma account_gate_witness :
  Signup.dispatch
    {| Signup.currentStep := 2; Signup.showPassword := false;
       Signup.formData :=
         {| Signup.name := "Jane"; Signup.email := "jane@example.com";
            Signup.password := "secret"; Signup.interests := [] |} |}
    Signup.ClickContinue
  = {| Signup.currentStep := 3; Signup.showPassword := false;
       Signup.formData :=
         {| Signup.name := "Jane"; Signup.email := "jane@example.com";
            Signup.password := "secret"; Signup.interests := [] |} |}.
Proof.
  apply (account_gate
           {| Signup.currentStep := 2; Signup.showPassword := false;
              Signup.formData :=
                {| Signup.name := "Jane"; Signup.email := "jane@example.com";
                   Signup.password := "secret"; Signup.interests := [] |} |}
           eq_refl); reflexivity.
Defined.

(** ** C6: refused transitions leave the state alone *)

Lemma continue_disabled_1_true (d : Signup.FormData) :
  JS.trim (Signup.name d) = ""%string → Signup.continue_disabled_1 d = true.
Proof. intros Hname. unfold Signup.continue_disabled_1. by rewrite Hname. Qed.

Lemma continue_disabled_2_true (d : Signup.FormData) :
  Signup.email d = ""%string ∨ JS.str_length (Signup.password d) < 6 →
  Signup.continue_disabled_2 d = true.
Proof.
  intros Hbad. destruct (Signup.continue_disabled_2 d) eqn:Hgate; [done|].
  apply continue_disabled_2_false in Hgate as [Hemail Hlen].
  destruct Hbad as [Hempty|Hshort]; [contradiction | lia].
Qed.

(** C6, as stated, fails on step 2: the Continue button does not follow
    the validator of the specification.  With the email "jane" and the
    password "secret" the validator fails, for want of an "@", and the
    click moves the wizard to step 3. *)
Lemma failed_validation_does_not_block_continue :
  ¬ (∀ s : Signup.State,
       Signup.currentStep s = 2 →
       ¬ Spec.account_valid (Signup.email (Signup.formData s))
                            (Signup.password (Signup.formData s)) →
       Signup.dispatch s Signup.ClickContinue = s).
Proof.
  intros Hclaim.
  specialize (Hclaim {| Signup.currentStep := 2; Signup.showPassword := false;
                        Signup.formData :=
                          {| Signup.name := "Jane"; Signup.email := "jane";
                             Signup.password := "secret"; Signup.interests := [] |} |}
                eq_refl).
  assert (Hstay : 3 = 2); [|lia].
  apply (f_equal Signup.currentStep) in Hclaim; [exact Hclaim|].
  intros [Hat _]. vm_compute in Hat. discriminate.
Qed.

(** C6, amended.  Every click the wizard refuses leaves the whole state as
    it was: Continue on the last step; Continue while its button is
    disabled, which is with an empty trimmed name on step 1 and with an
    empty email or a password of fewer than 6 characters on step 2; Back on
    the first step; Sign Up with no interest.  The handlers clamp by
    themselves as well: [nextStep] on step 3 and [prevStep] on step 1 return
    the state unchanged. *)
Theorem refused_transitions_change_nothing (s : Signup.State) (e : Signup.Event) :
  Signup.Refused s e →
  Signup.dispatch s e = s
  ∧ (Signup.currentStep s = 3 → Signup.nextStep s = s)
  ∧ (Signup.currentStep s = 1 → Signup.prevStep s = s).
Proof.
  intros Hrejected. split; [|split].
  - destruct Hrejected as [s Hs|s Hs Hname|s Hs Haccount|s Hs|s Hs Hnone];
      unfold Signup.dispatch; rewrite ?Hs; simpl; try done.
    + by rewrite continue_disabled_1_true.
    + by rewrite continue_disabled_2_true.
  - intros Hs. unfold Signup.nextStep. rewrite Hs. done.
  - intros Hs. unfold Signup.prevStep. rewrite Hs. done.
Qed.

Lemma refused_transitions_change_nothing_witness :
  Signup.dispatch
    {| Signup.currentStep := 2; Signup.showPassword := false;
       Signup.formData :=
         {| Signup.name := "Jane"; Signup.email := "jane@example.com";
            Signup.password := "four"; Signup.interests := [] |} |}
    Signup.ClickContinue
  = {| Signup.currentStep := 2; Signup.showPassword := false;
       Signup.formData :=
         {| Signup.name := "Jane"; Signup.email := "jane@example.com";
            Signup.password := "four"; Signup.interests := [] |} |}.
Proof.
  apply (refused_transitions_change_nothing
           {| Signup.currentStep := 2; Signup.showPassword := false;
              Signup.formData :=
                {| Signup.name := "Jane"; Signup.email := "jane@example.com";
                   Signup.password := "four"; Signup.interests := [] |} |}
           Signup.ClickContinue).
  apply Signup.advance_without_account; [reflexivity|].
  right. vm_compute. reflexivity.
Defined.

(** ** C7: toggling a label twice *)

Section Toggle.
Implicit Types (label : string) (prev : list string).

Lemma toggleFilter_absent label prev :
  label ∉ prev → Menu.toggleFilter label prev = prev ++ [label].
Proof. intros Hout. unfold Menu.toggleFilter. by rewrite bool_decide_eq_false_2. Qed.

Lemma toggleFilter_present label prev :
  label ∈ prev → Menu.toggleFilter label prev = filter (λ f, f ≠ label) prev.
Proof. intros Hin. unfold Menu.toggleFilter. by rewrite bool_decide_eq_true_2. Qed.

Lemma filter_out_absent label prev :
  label ∉ prev → filter (λ f, f ≠ label) prev = prev.
Proof.
  intros Hout. apply filter_Forall_id, Forall_forall.
  intros f Hf ->. contradiction.
Qed.

Lemma filter_out_removes label prev : label ∉ filter (λ f, f ≠ label) prev.
Proof. intros [Hne _]%list_elem_of_filter. by apply Hne. Qed.

Lemma toggleFilter_flips label prev : label ∈ Menu.toggleFilter label prev ↔ label ∉ prev.
Proof.
  destruct (decide (label ∈ prev)) as [Hin|Hout].
  - rewrite toggleFilter_present by done. split; [|done].
    intros Hstill. by apply filter_out_removes in Hstill.
  - rewrite toggleFilter_absent by done. split; [done|].
    intros _. apply elem_of_app. right. apply list_elem_of_here.
Qed.

Lemma toggleFilter_others label f prev :
  f ≠ label → f ∈ Menu.toggleFilter label prev ↔ f ∈ prev.
Proof.
  intros Hne. destruct (decide (label ∈ prev)) as [Hin|Hout].
  - rewrite toggleFilter_present, list_elem_of_filter by done. tauto.
  - rewrite toggleFilter_absent, elem_of_app, list_elem_of_singleton by done. tauto.
Qed.

Lemma toggleFilter_on_off label prev :
  label ∉ prev → Menu.toggleFilter label (Menu.toggleFilter label prev) = prev.
Proof.
  intros Hout. rewrite (toggleFilter_absent label prev) by done.
  rewrite toggleFilter_present by (apply elem_of_app; right; apply list_elem_of_here).
  rewrite filter_app, filter_out_absent by done.
  rewrite filter_cons_False by (intros Hne; by apply Hne).
  by rewrite filter_nil, app_nil_r.
Qed.

Lemma toggleFilter_off_on label prev :
  label ∈ prev →
  Menu.toggleFilter label (Menu.toggleFilter label prev)
  = filter (λ f, f ≠ label) prev ++ [label].
Proof.
  intros Hin. rewrite (toggleFilter_present label prev) by done.
  apply toggleFilter_absent, filter_out_removes.
Qed.

Lemma toggleFilter_twice_same_labels label prev :
  Spec.same_labels (Menu.toggleFilter label (Menu.toggleFilter label prev)) prev.
Proof.
  destruct (decide (label ∈ prev)) as [Hin|Hout].
  - rewrite toggleFilter_off_on by done. intros f.
    rewrite elem_of_app, list_elem_of_filter, list_elem_of_singleton.
    split.
    + intros [[_ Hf]| ->]; done.
    + intros Hf. destruct (decide (f = label)) as [->|Hne]; [by right | by left].
  - rewrite toggleFilter_on_off by done. done.
Qed.

Lemma toggleFilter_NoDup label prev : NoDup prev → NoDup (Menu.toggleFilter label prev).
Proof.
  intros Hnodup. destruct (decide (label ∈ prev)) as [Hin|Hout].
  - rewrite toggleFilter_present by done. by apply NoDup_filter.
  - rewrite toggleFilter_absent by done. apply NoDup_app. split; [done|]. split.
    + intros f Hf ->%list_elem_of_singleton. contradiction.
    + apply NoDup_singleton.
Qed.

Lemma same_labels_nil (l1 l2 : list string) :
  Spec.same_labels l1 l2 → l1 = [] → l2 = [].
Proof.
  intros Hsame ->. destruct l2 as [|f l2]; [done|].
  exfalso. eapply elem_of_nil. apply Hsame. apply list_elem_of_here.
Qed.

Lemma same_labels_shown (l1 l2 : list string) (item : Menu.MenuItem) :
  Spec.same_labels l1 l2 → Menu.shown l1 item ↔ Menu.shown l2 item.
Proof.
  intros Hsame. rewrite !shown_label_facet. unfold Spec.label_facet. split.
  - intros [Hnil|(f & Htag & Hsel)].
    + left. by eapply same_labels_nil.
    + right. exists f. split; [done | by apply Hsame].
  - intros [Hnil|(f & Htag & Hsel)].
    + left. eapply same_labels_nil; [|done]. intros f. symmetry. apply Hsame.
    + right. exists f. split; [done | by apply Hsame].
Qed.

Lemma same_labels_filteredItems (menuItems : gmap string (list Menu.MenuItem))
    activeCategory (l1 l2 : list string) :
  Spec.same_labels l1 l2 →
  Menu.filteredItems menuItems activeCategory l1
  = Menu.filteredItems menuItems activeCategory l2.
Proof.
  intros Hsame. unfold Menu.filteredItems.
  destruct (Menu.get menuItems activeCategory); [|done|done].
  f_equal. apply list_filter_iff. intros item. by apply same_labels_shown.
Qed.

End Toggle.

Lemma toggleInterest_interests (interest : string) (s : Signup.State) :
  Signup.interests (Signup.formData (Signup.toggleInterest interest s))
  = Menu.toggleFilter interest (Signup.interests (Signup.formData s)).
Proof. reflexivity. Qed.

(** C7.  Toggling a label twice gives back the selected labels it started
    from: the same set of labels in every case, and the very same array when
    the label was not selected before (on, then off).  The menu evaluator
    returns the same result before and after, on every menu and category.  A
    label that is selected is removed by the toggle, one that is not
    selected is added, no other label is touched, and an array without
    duplicates stays without duplicates.  All of this holds for
    [toggleFilter] on the selected filters of the menu and for
    [toggleInterest] on the interests of the wizard, which leaves the step,
    the password visibility and the other fields of the form as they
    were. *)
Theorem toggle_twice_restores (label : string) (prev : list string) (s : Signup.State) :
  Spec.same_labels (Menu.toggleFilter label (Menu.toggleFilter label prev)) prev
  ∧ (label ∉ prev → Menu.toggleFilter label (Menu.toggleFilter label prev) = prev)
  ∧ (∀ (menuItems : gmap string (list Menu.MenuItem)) (activeCategory : string),
       Menu.filteredItems menuItems activeCategory
         (Menu.toggleFilter label (Menu.toggleFilter label prev))
       = Menu.filteredItems menuItems activeCategory prev)
  ∧ (label ∈ prev → label ∉ Menu.toggleFilter label prev)
  ∧ (label ∉ prev → label ∈ Menu.toggleFilter label prev)
  ∧ (∀ f, f ≠ label → f ∈ Menu.toggleFilter label prev ↔ f ∈ prev)
  ∧ (NoDup prev → NoDup (Menu.toggleFilter label prev))
  ∧ Spec.same_labels
      (Signup.interests
         (Signup.formData (Signup.toggleInterest label (Signup.toggleInterest label s))))
      (Signup.interests (Signup.formData s))
  ∧ (label ∉ Signup.interests (Signup.formData s) →
     Signup.toggleInterest label (Signup.toggleInterest label s) = s)
  ∧ (label ∈ Signup.interests (Signup.formData s) →
     label ∉ Signup.interests (Signup.formData (Signup.toggleInterest label s)))
  ∧ (label ∉ Signup.interests (Signup.formData s) →
     label ∈ Signup.interests (Signup.formData (Signup.toggleInterest label s)))
  ∧ (∀ i, i ≠ label →
          i ∈ Signup.interests (Signup.formData (Signup.toggleInterest label s))
          ↔ i ∈ Signup.interests (Signup.formData s))
  ∧ (NoDup (Signup.interests (Signup.formData s)) →
     NoDup (Signup.interests (Signup.formData (Signup.toggleInterest label s))))
  ∧ Signup.currentStep (Signup.toggleInterest label s) = Signup.currentStep s
  ∧ Signup.showPassword (Signup.toggleInterest label s) = Signup.showPassword s
  ∧ Signup.name (Signup.formData (Signup.toggleInterest label s))
    = Signup.name (Signup.formData s)
  ∧ Signup.email (Signup.formData (Signup.toggleInterest label s))
    = Signup.email (Signup.formData s)
  ∧ Signup.password (Signup.formData (Signup.toggleInterest label s))
    = Signup.password (Signup.formData s).
Proof.
  split; [apply toggleFilter_twice_same_labels|].
  split; [apply toggleFilter_on_off|].
  split; [intros; apply same_labels_filteredItems, toggleFilter_twice_same_labels|].
  split; [intros Hin Hstill; by apply toggleFilter_flips in Hstill|].
  split; [intros Hout; by apply toggleFilter_flips|].
  split; [intros f; apply toggleFilter_others|].
  split; [apply toggleFilter_NoDup|].
  rewrite !toggleInterest_interests.
  split; [apply toggleFilter_twice_same_labels|].
  split.
  { intros Hout. destruct s as [step eye [name email password interests]].
    unfold Signup.toggleInterest, Signup.setFormData. simpl in *.
    f_equal. f_equal.
    apply (toggleFilter_on_off label interests Hout). }
  split; [intros Hin Hstill; by apply toggleFilter_flips in Hstill|].
  split; [intros Hout; by apply toggleFilter_flips|].
  split; [intros i; apply toggleFilter_others|].
  split; [apply toggleFilter_NoDup|].
  done.
Qed.


(** * Further properties of the pages *)

(** ** Filters in general *)

Section Filter.
Context {A : Type} (P Q : A → Prop) `{!∀ x, Decision (P x)} `{!∀ x, Decision (Q x)}.

Lemma filter_sublist_impl (l : list A) :
  (∀ x, x ∈ l → P x → Q x) → filter P l `sublist_of` filter Q l.
Proof.
  induction l as [|x l IH]; intros HPQ; [constructor|].
  assert (Htail : filter P l `sublist_of` filter Q l).
  { apply IH. intros y Hy. apply HPQ. by right. }
  destruct (decide (P x)) as [HP|HP].
  - rewrite (filter_cons_True P) by done.
    rewrite (filter_cons_True Q) by (apply HPQ; [by left | done]).
    by apply sublist_skip.
  - rewrite (filter_cons_False P) by done.
    destruct (decide (Q x)) as [HQ|HQ].
    + rewrite (filter_cons_True Q) by done. by apply sublist_cons.
    + by rewrite (filter_cons_False Q) by done.
Qed.

Lemma filter_none (l : list A) : Forall (λ x, ¬ P x) l → filter P l = [].
Proof.
  induction 1 as [|x l HP _ IH]; [done|].
  by rewrite filter_cons_False.
Qed.

End Filter.

(** ** The product evaluator, further *)

(** X1.  Narrowing never adds a product: the result for a price range is a
    subsequence of the result for any wider range, and the result for a
    category is a subsequence of the result for ["all"]. *)
Theorem filteredProducts_narrowing
    (catalog : list Ecommerce.Product) (selectedCategory : string)
    (lo hi lo' hi' : Z) :
  lo' <= lo → hi <= hi' →
  Ecommerce.filteredProducts catalog selectedCategory (lo, hi)
    `sublist_of` Ecommerce.filteredProducts catalog selectedCategory (lo', hi')
  ∧ Ecommerce.filteredProducts catalog selectedCategory (lo, hi)
    `sublist_of` Ecommerce.filteredProducts catalog "all" (lo, hi).
Proof.
  intros Hlo Hhi. split; apply filter_sublist_impl; simpl.
  - intros p _ (Hcat & Hmin & Hmax). split; [done | lia].
  - intros p _ (Hcat & Hrange). split; [by left | done].
Qed.

Lemma filteredProducts_narrowing_witness :
  Ecommerce.filteredProducts Ecommerce.products "clothing" (40, 50)
    `sublist_of` Ecommerce.filteredProducts Ecommerce.products "clothing" (0, 500)
  ∧ Ecommerce.filteredProducts Ecommerce.products "clothing" (40, 50)
    `sublist_of` Ecommerce.filteredProducts Ecommerce.products "all" (40, 50).
Proof.
  apply (filteredProducts_narrowing Ecommerce.products "clothing" 40 50 0 500); lia.
Defined.

(** X2.  The states with nothing to show: a price range whose lower bound
    is above its upper bound, or a category other than ["all"] that no
    product of the catalog has, gives the empty list. *)
Theorem filteredProducts_nothing_to_show
    (catalog : list Ecommerce.Product) (selectedCategory : string) (priceRange : Z * Z) :
  priceRange.1 > priceRange.2
  ∨ (selectedCategory ≠ "all"%string
     ∧ Forall (λ p, Ecommerce.category p ≠ selectedCategory) catalog) →
  Ecommerce.filteredProducts catalog selectedCategory priceRange = [].
Proof.
  intros Hnone. apply filter_none, Forall_forall. intros p Hp (Hcat & Hmin & Hmax).
  destruct Hnone as [Hinverted|[Hnotall Hmissing]].
  - lia.
  - destruct Hcat as [Hall|Hcat]; [done|].
    by apply (proj1 (Forall_forall _ _) Hmissing p).
Qed.

Lemma filteredProducts_nothing_to_show_witness :
  Ecommerce.filteredProducts Ecommerce.products "hats" (0, 500) = [].
Proof.
  apply (filteredProducts_nothing_to_show Ecommerce.products "hats" (0, 500)).
  right. split; [done|].
  unfold Ecommerce.products. repeat (apply Forall_cons; split; [done|]). apply Forall_nil_2.
Defined.

(** X3.  Evaluating twice: the evaluator applied to its own result gives
    that result again, and two evaluations with different selections can be
    done in either order. *)
Theorem filteredProducts_twice
    (catalog : list Ecommerce.Product) (c1 c2 : string) (r1 r2 : Z * Z) :
  Ecommerce.filteredProducts (Ecommerce.filteredProducts catalog c1 r1) c1 r1
  = Ecommerce.filteredProducts catalog c1 r1
  ∧ Ecommerce.filteredProducts (Ecommerce.filteredProducts catalog c1 r1) c2 r2
    = Ecommerce.filteredProducts (Ecommerce.filteredProducts catalog c2 r2) c1 r1.
Proof.
  unfold Ecommerce.filteredProducts. split.
  - rewrite list_filter_filter. apply list_filter_iff. intros p. tauto.
  - rewrite !list_filter_filter. apply list_filter_iff. intros p. tauto.
Qed.

(** X4.  The keys of the rendered cards: when the ids of the catalog are
    pairwise different, so are the ids of the products shown, and likewise
    for the items of a menu category. *)
Theorem results_keep_ids_unique
    (catalog : list Ecommerce.Product) (selectedCategory : string) (priceRange : Z * Z)
    (menuItems : gmap string (list Menu.MenuItem)) (activeCategory : string)
    (selectedFilters : list string) (items : list Menu.MenuItem) :
  NoDup (Ecommerce.id <$> catalog) →
  menuItems !! activeCategory = Some items →
  NoDup (Menu.id <$> items) →
  NoDup (Ecommerce.id <$> Ecommerce.filteredProducts catalog selectedCategory priceRange)
  ∧ ∃ r, Menu.filteredItems menuItems activeCategory selectedFilters = JS.Normal r
         ∧ NoDup (Menu.id <$> r).
Proof.
  intros Hcatalog Hown Hitems. split.
  - eapply sublist_NoDup; [exact Hcatalog|].
    apply fmap_sublist, sublist_filter.
  - eexists. split; [by apply filteredItems_own_key|].
    eapply sublist_NoDup; [exact Hitems|].
    apply fmap_sublist, sublist_filter.
Qed.

Lemma results_keep_ids_unique_witness :
  NoDup (Ecommerce.id <$> Ecommerce.filteredProducts Ecommerce.products "all" (0, 100))
  ∧ ∃ r, Menu.filteredItems Menu.menuItems "mains" ["popular"%string] = JS.Normal r
         ∧ NoDup (Menu.id <$> r).
Proof.
  apply (results_keep_ids_unique Ecommerce.products "all" (0, 100)
           Menu.menuItems "mains" ["popular"%string] Menu.mains).
  - apply (bool_decide_unpack _). by vm_compute.
  - reflexivity.
  - apply (bool_decide_unpack _). by vm_compute.
Defined.

(** ** The listing page as a whole *)

Lemma heading_defined (categories : list Ecommerce.Category) (id : string) :
  id ∈ Ecommerce.category_id <$> categories →
  is_Some (Ecommerce.heading categories id).
Proof.
  intros (c & -> & Hc)%list_elem_of_fmap. unfold Ecommerce.heading.
  case_bool_decide; [by eexists|].
  apply fmap_is_Some.
  by apply (list_find_elem_of (λ c', Ecommerce.category_id c' = Ecommerce.category_id c)
              categories c).
Qed.

Lemma NoDup_fmap_elem_inj {A B : Type} (f : A → B) (l : list A) (x y : A) :
  NoDup (f <$> l) → x ∈ l → y ∈ l → f x = f y → x = y.
Proof.
  intros Hnodup [i Hi]%list_elem_of_lookup_1 [j Hj]%list_elem_of_lookup_1 Hf.
  assert (i = j) as ->.
  { apply (NoDup_lookup (f <$> l) i j (f x) Hnodup).
    - by rewrite list_lookup_fmap, Hi.
    - by rewrite list_lookup_fmap, Hj, Hf. }
  congruence.
Qed.

(** X5.  The heading of the product grid.  When the ids of the category
    cards are pairwise different, selecting a card other than ["all"] puts
    the name of that card in the heading; a selected category that is no
    card and is not ["all"] leaves the heading undefined. *)
Theorem heading_names_the_selected_category
    (categories : list Ecommerce.Category) (c : Ecommerce.Category) :
  NoDup (Ecommerce.category_id <$> categories) →
  c ∈ categories →
  Ecommerce.category_id c ≠ "all"%string →
  Ecommerce.heading categories (Ecommerce.category_id c) = Some (Ecommerce.category_name c)
  ∧ ∀ id, id ≠ "all"%string → id ∉ Ecommerce.category_id <$> categories →
          Ecommerce.heading categories id = None.
Proof.
  intros Hnodup Hc Hnotall. split.
  - unfold Ecommerce.heading. rewrite bool_decide_eq_false_2 by done.
    destruct (list_find_elem_of
                (λ c', Ecommerce.category_id c' = Ecommerce.category_id c)
                categories c Hc eq_refl) as [[i found] Hfind].
    rewrite Hfind. simpl.
    apply list_find_Some in Hfind as (Hi & Hid & _).
    f_equal. f_equal.
    eapply NoDup_fmap_elem_inj; [exact Hnodup | | exact Hc | exact Hid].
    by eapply list_elem_of_lookup_2.
  - intros id Hid Hmissing. unfold Ecommerce.heading.
    rewrite bool_decide_eq_false_2 by done.
    apply fmap_None, list_find_None, Forall_forall.
    intros c' Hc' Heq. apply Hmissing. rewrite <- Heq. by apply list_elem_of_fmap_2.
Qed.

Lemma heading_names_the_selected_category_witness :
  Ecommerce.heading Ecommerce.categories "shoes" = Some "Shoes"%string
  ∧ ∀ id, id ≠ "all"%string → id ∉ Ecommerce.category_id <$> Ecommerce.categories →
          Ecommerce.heading Ecommerce.categories id = None.
Proof.
  apply (heading_names_the_selected_category Ecommerce.categories
           {| Ecommerce.category_id := "shoes"; Ecommerce.category_name := "Shoes" |}).
  - apply (bool_decide_unpack _). by vm_compute.
  - apply (bool_decide_unpack _). by vm_compute.
  - done.
Defined.

Lemma listing_invariant_dispatch (s : Ecommerce.State) (n : nat) (e : Ecommerce.Event) :
  Ecommerce.invariant s n → Ecommerce.available e →
  Ecommerce.invariant (Ecommerce.dispatch s e) (S n).
Proof.
  intros (Hmin & Hmax & Hslide & Hcat & Hcart) He.
  destruct e as [|id|value|c]; unfold Ecommerce.invariant; simpl.
  - destruct (Ecommerce.filteredProducts _ _ _); simpl; repeat split; try done; lia.
  - repeat split; try done; lia.
  - repeat split; try done; try lia; apply He.
  - repeat split; try done; try lia;
      apply (carousel_step_in_range Ecommerce.heroSlides ltac:(simpl; lia)
               (Ecommerce.currentSlide s) c Hslide He).
Qed.

Lemma listing_run_invariant (es : list Ecommerce.Event) :
  Forall Ecommerce.available es →
  Ecommerce.invariant (Ecommerce.run Ecommerce.initial es) (length es).
Proof.
  intros Hes. induction es as [|e es IH] using rev_ind.
  - unfold Ecommerce.invariant. simpl. repeat split; try lia.
    apply (bool_decide_unpack _). by vm_compute.
  - apply Forall_app in Hes as [Hes [He _]%Forall_cons].
    unfold Ecommerce.run. rewrite foldl_app, length_app. simpl.
    rewrite Nat.add_1_r. apply listing_invariant_dispatch; [by apply IH | done].
Qed.

(** X6.  The states of the listing page.  After any sequence of events on
    the controls the page renders, starting from the initial state: the
    lower bound of the price range is still 0 and the upper bound is in
    [[0, 500]]; the carousel is on one of the three slides; the selected
    category is one of the category cards, so the heading is defined; and
    the cart counter is between 0 and the number of events. *)
Theorem listing_reachable_states (es : list Ecommerce.Event) :
  Forall Ecommerce.available es →
  Ecommerce.invariant (Ecommerce.run Ecommerce.initial es) (length es)
  ∧ is_Some (Ecommerce.heading Ecommerce.categories
               (Ecommerce.selectedCategory (Ecommerce.run Ecommerce.initial es))).
Proof.
  intros Hes. pose proof (listing_run_invariant es Hes) as Hinv.
  split; [done|]. apply heading_defined. apply Hinv.
Qed.

Lemma listing_reachable_states_witness :
  Ecommerce.invariant
    (Ecommerce.run Ecommerce.initial
       [Ecommerce.Slide 20; Ecommerce.ClickAddToCart; Ecommerce.ClickCategory "bags";
        Ecommerce.Carousel Ecommerce.ClickPrev]) 4
  ∧ is_Some (Ecommerce.heading Ecommerce.categories
               (Ecommerce.selectedCategory
                  (Ecommerce.run Ecommerce.initial
                     [Ecommerce.Slide 20; Ecommerce.ClickAddToCart;
                      Ecommerce.ClickCategory "bags";
                      Ecommerce.Carousel Ecommerce.ClickPrev]))).
Proof.
  apply (listing_reachable_states
           [Ecommerce.Slide 20; Ecommerce.ClickAddToCart; Ecommerce.ClickCategory "bags";
            Ecommerce.Carousel Ecommerce.ClickPrev]).
  repeat (apply Forall_cons; split; [simpl; try lia; try exact I|]); [|apply Forall_nil_2].
  apply (bool_decide_unpack _). by vm_compute.
Defined.

(** X7.  The ends of the carousel.  With [N >= 1] slides and the carousel
    on slide [p] of [[0, N-1]]: the next slide is [p + 1], and slide 0 after
    the last one; the previous slide is [p - 1], and the last slide before
    slide 0. *)
Theorem carousel_wraps_at_the_ends (heroSlides : list Ecommerce.HeroSlide) (p : Z) :
  1 <= Z.of_nat (length heroSlides) →
  0 <= p < Z.of_nat (length heroSlides) →
  Ecommerce.nextSlide heroSlides p
  = (if bool_decide (p = Z.of_nat (length heroSlides) - 1) then 0 else p + 1)
  ∧ Ecommerce.prevSlide heroSlides p
    = (if bool_decide (p = 0) then Z.of_nat (length heroSlides) - 1 else p - 1).
Proof.
  intros HN Hp. rewrite nextSlide_mod, prevSlide_mod by lia. split.
  - case_bool_decide as Hlast.
    + replace (p + 1) with (Z.of_nat (length heroSlides)) by lia. apply Z_mod_same_full.
    + apply Z.mod_small. lia.
  - case_bool_decide as Hfirst.
    + subst p. rewrite Z.mod_small; lia.
    + replace (p - 1 + Z.of_nat (length heroSlides))
        with (p - 1 + 1 * Z.of_nat (length heroSlides)) by lia.
      rewrite Z_mod_plus_full. apply Z.mod_small. lia.
Qed.

Lemma carousel_wraps_at_the_ends_witness :
  Ecommerce.nextSlide Ecommerce.heroSlides 2
  = (if bool_decide (2 = Z.of_nat (length Ecommerce.heroSlides) - 1) then 0 else 2 + 1)
  ∧ Ecommerce.prevSlide Ecommerce.heroSlides 2
    = (if bool_decide (2 = 0) then Z.of_nat (length Ecommerce.heroSlides) - 1 else 2 - 1).
Proof.
  apply (carousel_wraps_at_the_ends Ecommerce.heroSlides 2); simpl; lia.
Defined.

(** ** The menu page as a whole *)

Section ToggleMembership.
Implicit Types (label f : string) (prev : list string).

Lemma filter_out_length label prev :
  NoDup prev → label ∈ prev →
  S (length (filter (λ f, f ≠ label) prev)) = length prev.
Proof.
  induction 1 as [|f prev Hf Hnodup IH]; intros Hin.
  - by apply elem_of_nil in Hin.
  - destruct (decide (f = label)) as [->|Hne].
    + rewrite filter_cons_False by (intros Hne; by apply Hne).
      by rewrite filter_out_absent.
    + rewrite filter_cons_True by done. simpl. f_equal. apply IH.
      apply elem_of_cons in Hin as [->|Hin]; [done | done].
Qed.

End ToggleMembership.

(** X8.  A click on a chip changes that chip and no other: the label is
    selected afterwards if and only if it was not before, and every other
    label is selected afterwards if and only if it was before.  On an array
    without duplicates the number of selected labels moves by exactly one. *)
Theorem toggle_changes_one_label (label : string) (prev : list string) :
  NoDup prev →
  (label ∈ Menu.toggleFilter label prev ↔ label ∉ prev)
  ∧ (∀ f, f ≠ label → f ∈ Menu.toggleFilter label prev ↔ f ∈ prev)
  ∧ (label ∈ prev → S (length (Menu.toggleFilter label prev)) = length prev)
  ∧ (label ∉ prev → length (Menu.toggleFilter label prev) = S (length prev)).
Proof.
  intros Hnodup. split; [apply toggleFilter_flips|].
  split; [intros f; apply toggleFilter_others|]. split.
  - intros Hin. rewrite toggleFilter_present by done. by apply filter_out_length.
  - intros Hout. rewrite toggleFilter_absent, length_app by done. simpl. lia.
Qed.

Lemma toggle_changes_one_label_witness :
  ("spicy"%string ∈ Menu.toggleFilter "spicy" ["popular"; "spicy"]%string
   ↔ "spicy"%string ∉ ["popular"; "spicy"]%string)
  ∧ (∀ f, f ≠ "spicy"%string →
          f ∈ Menu.toggleFilter "spicy" ["popular"; "spicy"]%string
          ↔ f ∈ ["popular"; "spicy"]%string)
  ∧ ("spicy"%string ∈ ["popular"; "spicy"]%string →
     S (length (Menu.toggleFilter "spicy" ["popular"; "spicy"]%string))
     = length ["popular"; "spicy"]%string)
  ∧ ("spicy"%string ∉ ["popular"; "spicy"]%string →
     length (Menu.toggleFilter "spicy" ["popular"; "spicy"]%string)
     = S (length ["popular"; "spicy"]%string)).
Proof.
  apply (toggle_changes_one_label "spicy" ["popular"; "spicy"]%string).
  apply (bool_decide_unpack _). by vm_compute.
Defined.

(** X9.  The order of the clicks on two chips does not matter: both orders
    select the same set of labels, and the menu evaluator returns the same
    result for both, on every menu and category. *)
Theorem toggles_commute (a b : string) (prev : list string)
    (menuItems : gmap string (list Menu.MenuItem)) (activeCategory : string) :
  Spec.same_labels (Menu.toggleFilter a (Menu.toggleFilter b prev))
                   (Menu.toggleFilter b (Menu.toggleFilter a prev))
  ∧ Menu.filteredItems menuItems activeCategory
      (Menu.toggleFilter a (Menu.toggleFilter b prev))
    = Menu.filteredItems menuItems activeCategory
        (Menu.toggleFilter b (Menu.toggleFilter a prev)).
Proof.
  assert (Hsame : Spec.same_labels (Menu.toggleFilter a (Menu.toggleFilter b prev))
                                   (Menu.toggleFilter b (Menu.toggleFilter a prev))).
  { intros f. destruct (decide (a = b)) as [->|Hab]; [done|].
    destruct (decide (f = a)) as [->|Hfa]; [|destruct (decide (f = b)) as [->|Hfb]].
    - rewrite toggleFilter_flips, !(toggleFilter_others b a) by done.
      by rewrite toggleFilter_flips.
    - rewrite (toggleFilter_others a b) by done.
      rewrite !toggleFilter_flips. by rewrite (toggleFilter_others a b) by done.
    - by rewrite !toggleFilter_others by done. }
  split; [done | by apply same_labels_filteredItems].
Qed.

(** X10.  Selecting more labels never hides an item, as long as a label
    was selected already: if every label of [selected] is in [more] and
    [selected] is not empty, the result for [selected] is a subsequence of
    the result for [more].  And the result for any selection is a
    subsequence of the result for the empty selection. *)
Theorem more_labels_show_more
    (menuItems : gmap string (list Menu.MenuItem)) (activeCategory : string)
    (selected more : list string) (items : list Menu.MenuItem) :
  menuItems !! activeCategory = Some items →
  selected ≠ [] →
  (∀ label, label ∈ selected → label ∈ more) →
  ∃ r r' r0,
    Menu.filteredItems menuItems activeCategory selected = JS.Normal r
    ∧ Menu.filteredItems menuItems activeCategory more = JS.Normal r'
    ∧ Menu.filteredItems menuItems activeCategory [] = JS.Normal r0
    ∧ r `sublist_of` r' ∧ r' `sublist_of` r0 ∧ r0 = items.
Proof.
  intros Hown Hselected Hmore. do 3 eexists.
  split; [by apply filteredItems_own_key|].
  split; [by apply filteredItems_own_key|].
  split; [by apply filteredItems_own_key|].
  split; [|split].
  - apply filter_sublist_impl. intros item _.
    rewrite !shown_label_facet. intros [Hnil|(label & Htag & Hsel)]; [done|].
    right. exists label. split; [done | by apply Hmore].
  - apply filter_sublist_impl. intros item _ _. by left.
  - apply filter_Forall_id, Forall_forall. intros item _. by left.
Qed.

Lemma more_labels_show_more_witness :
  ∃ r r' r0,
    Menu.filteredItems Menu.menuItems "appetizers" ["spicy"%string] = JS.Normal r
    ∧ Menu.filteredItems Menu.menuItems "appetizers" ["spicy"; "popular"]%string
      = JS.Normal r'
    ∧ Menu.filteredItems Menu.menuItems "appetizers" [] = JS.Normal r0
    ∧ r `sublist_of` r' ∧ r' `sublist_of` r0 ∧ r0 = Menu.appetizers.
Proof.
  apply (more_labels_show_more Menu.menuItems "appetizers"
           ["spicy"%string] ["spicy"; "popular"]%string Menu.appetizers).
  - reflexivity.
  - done.
  - intros label Hlabel. apply elem_of_cons. by left; apply list_elem_of_singleton.
Defined.

Lemma menu_dispatch_invariant (s : Menu.State) (e : Menu.Event) :
  Menu.available e →
  Menu.activeCategory s ∈ Menu.categories →
  NoDup (Menu.selectedFilters s) →
  (∀ f, f ∈ Menu.selectedFilters s → f ∈ Menu.filters) →
  Menu.activeCategory (Menu.dispatch s e) ∈ Menu.categories
  ∧ NoDup (Menu.selectedFilters (Menu.dispatch s e))
  ∧ (∀ f, f ∈ Menu.selectedFilters (Menu.dispatch s e) → f ∈ Menu.filters).
Proof.
  intros He Hcat Hnodup Hsub. destruct e as [id|id]; simpl in *.
  - done.
  - split; [done|]. split; [by apply toggleFilter_NoDup|].
    intros f Hf. destruct (decide (f = id)) as [->|Hne]; [done|].
    apply Hsub. by apply (toggleFilter_others id f).
Qed.

(** X11.  The states of the menu page.  After any sequence of clicks on the
    tabs and chips the page renders, starting from the initial state: the
    active category is one of the four tabs; the selected labels are chips
    of the page, without duplicates; and the evaluation of the menu filter
    returns normally, with a subsequence of the items of the active
    category. *)
Theorem menu_reachable_states (es : list Menu.Event) :
  Forall Menu.available es →
  Menu.activeCategory (Menu.run Menu.initial es) ∈ Menu.categories
  ∧ NoDup (Menu.selectedFilters (Menu.run Menu.initial es))
  ∧ (∀ f, f ∈ Menu.selectedFilters (Menu.run Menu.initial es) → f ∈ Menu.filters)
  ∧ ∃ items r,
      Menu.menuItems !! Menu.activeCategory (Menu.run Menu.initial es) = Some items
      ∧ Menu.filteredItems Menu.menuItems
          (Menu.activeCategory (Menu.run Menu.initial es))
          (Menu.selectedFilters (Menu.run Menu.initial es)) = JS.Normal r
      ∧ r `sublist_of` items.
Proof.
  intros Hes.
  assert (Hinv : Menu.activeCategory (Menu.run Menu.initial es) ∈ Menu.categories
                 ∧ NoDup (Menu.selectedFilters (Menu.run Menu.initial es))
                 ∧ (∀ f, f ∈ Menu.selectedFilters (Menu.run Menu.initial es)
                         → f ∈ Menu.filters)).
  { induction es as [|e es IH] using rev_ind.
    - simpl. split; [by left|]. split; [constructor|].
      intros f Hf. by apply elem_of_nil in Hf.
    - apply Forall_app in Hes as [Hes [He _]%Forall_cons].
      unfold Menu.run. rewrite foldl_app. simpl.
      destruct (IH Hes) as (Hcat & Hnodup & Hsub).
      by apply menu_dispatch_invariant. }
  destruct Hinv as (Hcat & Hnodup & Hsub).
  split; [done|]. split; [done|]. split; [done|].
  destruct (proj1 (Forall_forall _ _) sample_menu_has_the_tabs _ Hcat) as [items Hown].
  exists items. eexists. split; [done|].
  split; [by apply filteredItems_own_key | apply sublist_filter].
Qed.

Lemma menu_reachable_states_witness :
  Menu.activeCategory
    (Menu.run Menu.initial [Menu.ClickChip "spicy"; Menu.ClickTab "drinks"])
  ∈ Menu.categories
  ∧ NoDup (Menu.selectedFilters
             (Menu.run Menu.initial [Menu.ClickChip "spicy"; Menu.ClickTab "drinks"]))
  ∧ (∀ f, f ∈ Menu.selectedFilters
                (Menu.run Menu.initial [Menu.ClickChip "spicy"; Menu.ClickTab "drinks"])
          → f ∈ Menu.filters)
  ∧ ∃ items r,
      Menu.menuItems
        !! Menu.activeCategory
             (Menu.run Menu.initial [Menu.ClickChip "spicy"; Menu.ClickTab "drinks"])
      = Some items
      ∧ Menu.filteredItems Menu.menuItems
          (Menu.activeCategory
             (Menu.run Menu.initial [Menu.ClickChip "spicy"; Menu.ClickTab "drinks"]))
          (Menu.selectedFilters
             (Menu.run Menu.initial [Menu.ClickChip "spicy"; Menu.ClickTab "drinks"]))
        = JS.Normal r
      ∧ r `sublist_of` items.
Proof.
  apply (menu_reachable_states [Menu.ClickChip "spicy"; Menu.ClickTab "drinks"]).
  repeat (apply Forall_cons; split; [apply (bool_decide_unpack _); by vm_compute|]).
  apply Forall_nil_2.
Defined.

(** ** The wizard as a whole *)

Lemma continue_disabled_1_false (d : Signup.FormData) :
  Signup.continue_disabled_1 d = false ↔ JS.trim (Signup.name d) ≠ ""%string.
Proof.
  unfold Signup.continue_disabled_1. by rewrite negb_false_iff, truthy_nonempty.
Qed.

Local Ltac invariant_parts :=
  unfold Signup.invariant, Signup.updateField, Signup.toggleInterest,
    Signup.setCurrentStep, Signup.setFormData, Signup.setShowPassword;
  simpl; refine (conj _ (conj _ (conj _ (conj _ _)))).

Lemma wizard_invariant_dispatch (s : Signup.State) (e : Signup.Event) :
  Signup.invariant s → Signup.invariant (Signup.dispatch s e).
Proof.
  intros (Hstep & Hname & Haccount & Hnodup & Hoffered).
  assert (Hkeep : Signup.invariant s) by done.
  destruct e as [| |field value| |interest|]; unfold Signup.dispatch.
  - case_bool_decide as H1; [|case_bool_decide as H2; [|done]].
    + destruct (Signup.continue_disabled_1 _) eqn:Hgate; [done|].
      apply continue_disabled_1_false in Hgate.
      unfold Signup.nextStep. rewrite bool_decide_eq_true_2 by lia.
      invariant_parts; [lia | done | intros ?; lia | done | done].
    + destruct (Signup.continue_disabled_2 _) eqn:Hgate; [done|].
      apply continue_disabled_2_false in Hgate.
      unfold Signup.nextStep. rewrite bool_decide_eq_true_2 by lia.
      invariant_parts; [lia | intros _; apply Hname; lia | done | done | done].
  - destruct (bool_decide _ || bool_decide _) eqn:Hback; [|done]. clear Hback.
    unfold Signup.prevStep. case_bool_decide as Hgt; [|done].
    invariant_parts; [lia | intros ?; apply Hname; lia | intros ?; lia | done | done].
  - destruct field; (case_bool_decide as Hon; [|done]);
      (invariant_parts;
       [lia | intros ?; first [lia | apply Hname; lia] | intros ?; lia | done | done]).
  - case_bool_decide as Hon; [|done].
    invariant_parts; done.
  - destruct (bool_decide _ && bool_decide _) eqn:Hon; [|done].
    apply andb_prop in Hon as [_ Hoff%bool_decide_eq_true_1].
    invariant_parts; [done | done | done | |].
    + apply (toggleFilter_NoDup interest _ Hnodup).
    + intros i Hi. destruct (decide (i = interest)) as [->|Hne]; [done|].
      apply Hoffered. by apply (toggleFilter_others interest i).
  - done.
Qed.

Lemma wizard_run_invariant (es : list Signup.Event) :
  Signup.invariant (Signup.run Signup.initial es).
Proof.
  induction es as [|e es IH] using rev_ind.
  - unfold Signup.invariant. simpl. repeat split; try lia; try done.
    + constructor.
    + intros i Hi. by apply elem_of_nil in Hi.
  - unfold Signup.run. rewrite foldl_app. simpl. by apply wizard_invariant_dispatch.
Qed.

(** X12.  How far the wizard lets a user go.  After any sequence of events,
    starting from the initial state: the wizard is on step 1, 2 or 3; if it
    is past step 1 the trimmed name is not empty; if it is on step 3, where
    the Sign Up button is, the email is not empty and the password has at
    least 6 characters; and the selected interests are among the eight
    offered, without duplicates. *)
Theorem wizard_reachable_states (es : list Signup.Event) :
  1 <= Signup.currentStep (Signup.run Signup.initial es) <= 3
  ∧ (2 <= Signup.currentStep (Signup.run Signup.initial es) →
     JS.trim (Signup.name (Signup.formData (Signup.run Signup.initial es))) ≠ ""%string)
  ∧ (Signup.currentStep (Signup.run Signup.initial es) = 3 →
     Signup.email (Signup.formData (Signup.run Signup.initial es)) ≠ ""%string
     ∧ 6 <= JS.str_length
              (Signup.password (Signup.formData (Signup.run Signup.initial es))))
  ∧ NoDup (Signup.interests (Signup.formData (Signup.run Signup.initial es)))
  ∧ (∀ i, i ∈ Signup.interests (Signup.formData (Signup.run Signup.initial es)) →
          i ∈ Signup.interests_offered).
Proof.
  pose proof (wizard_run_invariant es) as Hinv.
  unfold Signup.invariant in Hinv. exact Hinv.
Qed.

(** X13.  Navigation and typing do not interfere.  Continue and Back leave
    the form data and the password visibility as they are; every other
    event leaves the step as it is; and no event moves the wizard by more
    than one step. *)
Theorem wizard_events_are_local (s : Signup.State) (e : Signup.Event) :
  (e = Signup.ClickContinue ∨ e = Signup.ClickBack →
   Signup.formData (Signup.dispatch s e) = Signup.formData s
   ∧ Signup.showPassword (Signup.dispatch s e) = Signup.showPassword s)
  ∧ (e ≠ Signup.ClickContinue → e ≠ Signup.ClickBack →
     Signup.currentStep (Signup.dispatch s e) = Signup.currentStep s)
  ∧ Signup.currentStep s - 1 <= Signup.currentStep (Signup.dispatch s e)
    <= Signup.currentStep s + 1.
Proof.
  destruct e as [| |field value| |interest|]; unfold Signup.dispatch;
    unfold Signup.nextStep, Signup.prevStep;
    (split; [|split]);
    try (intros [Hc|Hb]; try discriminate);
    try (intros Hc Hb; try done);
    repeat (case_bool_decide || case_match); simpl; try done; try lia.
Qed.

(** X14.  The hints of step 2 and its Continue button agree on the
    password: when Continue is enabled the hint reads "Strong password";
    when the hint reads "At least 6 characters" Continue is disabled; and
    when both hints are positive Continue is enabled. *)
Theorem hints_agree_with_the_gate (d : Signup.FormData) :
  (Signup.continue_disabled_2 d = false → Signup.password_hint d = Some true)
  ∧ (Signup.password_hint d = Some false → Signup.continue_disabled_2 d = true)
  ∧ (Signup.email_hint d = true → Signup.password_hint d = Some true →
     Signup.continue_disabled_2 d = false).
Proof.
  unfold Signup.password_hint, Signup.email_hint. split; [|split].
  - intros [Hemail Hlen]%continue_disabled_2_false.
    destruct (JS.truthy (Signup.password d)) eqn:Hpw.
    + f_equal. apply bool_decide_eq_true_2. lia.
    + destruct (Signup.password d); [|done]. unfold JS.str_length in Hlen. simpl in Hlen. lia.
  - destruct (JS.truthy (Signup.password d)); [|done].
    intros [= Hshort%bool_decide_eq_false_1].
    apply continue_disabled_2_true. right. lia.
  - intros [Hemail _]%andb_prop. apply truthy_nonempty in Hemail.
    destruct (JS.truthy (Signup.password d)); [|done].
    intros [= Hlong%bool_decide_eq_true_1].
    apply continue_disabled_2_false. split; [done | lia].
Qed.

(** ** The gate of step 1 *)

Section Trim.

Lemma trimStart_empty (s : string) :
  JS.trimStart s = ""%string
  ↔ Forall (λ c, JS.is_white_space c = true) (String.list_ascii_of_string s).
Proof.
  induction s as [|c s IH]; simpl.
  - split; [constructor | done].
  - destruct (JS.is_white_space c) eqn:Hc.
    + rewrite IH. split; [by constructor|]. by intros [_ ?]%Forall_cons.
    + split; [done|]. intros [Hws _]%Forall_cons. congruence.
Qed.

Lemma trimStart_head (s : string) (c : ascii) (t : string) :
  JS.trimStart s = String c t → JS.is_white_space c = false.
Proof.
  induction s as [|c' s IH]; simpl; [done|].
  destruct (JS.is_white_space c') eqn:Hc; [done|]. by intros [= <- _].
Qed.

Lemma trimEnd_head (c : ascii) (t : string) :
  JS.is_white_space c = false → JS.trimEnd (String c t) ≠ ""%string.
Proof. intros Hc. simpl. destruct (JS.trimEnd t); [by rewrite Hc | done]. Qed.

Lemma trim_empty (s : string) :
  JS.trim s = ""%string
  ↔ Forall (λ c, JS.is_white_space c = true) (String.list_ascii_of_string s).
Proof.
  rewrite <- trimStart_empty. unfold JS.trim.
  destruct (JS.trimStart s) as [|c t] eqn:Hstart; [done|].
  split; [|done]. intros Hend. exfalso.
  by apply (trimEnd_head c t (trimStart_head s c t Hstart)).
Qed.

End Trim.

(** X15.  The Continue button of step 1 is enabled exactly when the name
    holds a character that is not white space. *)
Theorem name_gate (d : Signup.FormData) :
  Signup.continue_disabled_1 d = false
  ↔ Exists (λ c, JS.is_white_space c = false)
           (String.list_ascii_of_string (Signup.name d)).
Proof.
  split.
  - intros Hgate%continue_disabled_1_false.
    destruct (decide (Exists (λ c, JS.is_white_space c = false)
                        (String.list_ascii_of_string (Signup.name d))))
      as [Hsome|Hnone]; [done|].
    destruct Hgate. apply trim_empty.
    apply not_Exists_Forall in Hnone; [|intros c; apply _].
    eapply Forall_impl; [exact Hnone|].
    simpl. intros c Hc. by destruct (JS.is_white_space c).
  - intros Hsome. apply continue_disabled_1_false. intros Hblank%trim_empty.
    apply Exists_exists in Hsome as (c & Hc & Hblack).
    pose proof (proj1 (Forall_forall _ _) Hblank c Hc) as Hwhite. simpl in Hwhite.
    congruence.
Qed.

(** ** The footer of the landing page *)

Lemma split_first_piece (sep : ascii) (s : string) :
  ∃ piece pieces,
    Index.split sep s = piece :: pieces
    ∧ (sep ∉ String.list_ascii_of_string piece)
    ∧ ((pieces = [] ∧ s = piece)
       ∨ (∃ rest, s = piece +:+ String sep rest ∧ pieces = Index.split sep rest)).
Proof.
  induction s as [|c s IH]; simpl.
  - exists ""%string, []. split; [done|]. split; [|by left].
    simpl. by intros ?%elem_of_nil.
  - case_bool_decide as Hsep.
    + subst c. exists ""%string, (Index.split sep s). split; [done|].
      split; [simpl; by intros ?%elem_of_nil|]. right. by exists s.
    + destruct IH as (piece & pieces & -> & Hfree & Hshape).
      exists (String c piece), pieces. split; [done|]. split.
      * simpl. intros [Heq|Hin]%elem_of_cons; [by apply Hsep | by apply Hfree].
      * destruct Hshape as [[-> ->]|(rest & -> & ->)]; [by left|].
        right. by exists rest.
Qed.

(** X16.  The label of a footer link is the first word of the project's
    title: [title.split(' ')[0]] is defined for every title, holds no
    space, and is the whole title or the part of the title before its first
    space. *)
Theorem footer_label_is_the_first_word (title : string) :
  ∃ label,
    Index.footer_label title = Some label
    ∧ (" "%char ∉ String.list_ascii_of_string label)
    ∧ (title = label ∨ (∃ rest, title = label +:+ String " " rest)).
Proof.
  destruct (split_first_piece " " title) as (piece & pieces & Hsplit & Hfree & Hshape).
  exists piece. unfold Index.footer_label. rewrite Hsplit. split; [done|].
  split; [done|].
  destruct Hshape as [[_ ->]|(rest & -> & _)]; [by left | right; by exists rest].
Qed.

(** ** Going back and forth in the wizard *)

(** X17.  Back, then Continue.  In every state the wizard reaches past
    step 1, a click on Back followed by a click on Continue gives the state
    it started from: what let the user through the first time still does. *)
Theorem back_then_continue_returns (es : list Signup.Event) :
  2 <= Signup.currentStep (Signup.run Signup.initial es) →
  Signup.dispatch (Signup.dispatch (Signup.run Signup.initial es) Signup.ClickBack)
    Signup.ClickContinue
  = Signup.run Signup.initial es.
Proof.
  pose proof (wizard_run_invariant es) as (Hstep & Hname & Haccount & _).
  destruct (Signup.run Signup.initial es) as [step eye d]. simpl in *.
  intros Hpast. specialize (Hname Hpast).
  assert (Hgate1 : Signup.continue_disabled_1 d = false)
    by by apply continue_disabled_1_false.
  destruct (decide (step = 2)) as [->|Hne].
  - unfold Signup.dispatch, Signup.prevStep, Signup.nextStep. simpl.
    by rewrite Hgate1.
  - assert (step = 3) as -> by lia.
    assert (Hgate2 : Signup.continue_disabled_2 d = false)
      by by apply continue_disabled_2_false, Haccount.
    unfold Signup.dispatch, Signup.prevStep, Signup.nextStep. simpl.
    by rewrite Hgate2.
Qed.

Lemma back_then_continue_returns_witness :
  Signup.dispatch
    (Signup.dispatch
       (Signup.run Signup.initial
          [Signup.Type_ Signup.FieldName "Jane"; Signup.ClickContinue])
       Signup.ClickBack)
    Signup.ClickContinue
  = Signup.run Signup.initial
      [Signup.Type_ Signup.FieldName "Jane"; Signup.ClickContinue].
Proof.
  apply (back_then_continue_returns
           [Signup.Type_ Signup.FieldName "Jane"; Signup.ClickContinue]).
  vm_compute. discriminate.
Defined.

(** ** The price slider *)

(** X18.  The lower bound of the price range never hides a product.  In
    every state the listing page reaches, on a catalog without negative
    prices, the evaluator returns the products of the selected category
    whose price is at most the value of the slider. *)
Theorem slider_is_an_upper_bound
    (catalog : list Ecommerce.Product) (es : list Ecommerce.Event) :
  Forall (λ p, 0 <= Ecommerce.price p) catalog →
  Forall Ecommerce.available es →
  Ecommerce.filteredProducts catalog
    (Ecommerce.selectedCategory (Ecommerce.run Ecommerce.initial es))
    (Ecommerce.priceRange (Ecommerce.run Ecommerce.initial es))
  = filter (λ p, (Ecommerce.selectedCategory (Ecommerce.run Ecommerce.initial es)
                  = "all"%string
                  ∨ Ecommerce.category p
                    = Ecommerce.selectedCategory (Ecommerce.run Ecommerce.initial es))
                 ∧ Ecommerce.price p
                   <= (Ecommerce.priceRange (Ecommerce.run Ecommerce.initial es)).2)
      catalog.
Proof.
  intros Hprices Hes.
  destruct (listing_run_invariant es Hes) as (Hmin & _).
  unfold Ecommerce.filteredProducts.
  induction Hprices as [|p catalog Hp _ IH]; [done|].
  rewrite !filter_cons, IH.
  destruct (decide _) as [Hyes|Hno]; destruct (decide _) as [Hyes'|Hno']; try done.
  - destruct Hno'. destruct Hyes as (Hcat & _ & Hmax). done.
  - destruct Hno. destruct Hyes' as (Hcat & Hmax). split; [done|]. split; [lia | done].
Qed.

Lemma slider_is_an_upper_bound_witness :
  Ecommerce.filteredProducts Ecommerce.products
    (Ecommerce.selectedCategory (Ecommerce.run Ecommerce.initial [Ecommerce.Slide 50]))
    (Ecommerce.priceRange (Ecommerce.run Ecommerce.initial [Ecommerce.Slide 50]))
  = filter (λ p, (Ecommerce.selectedCategory
                    (Ecommerce.run Ecommerce.initial [Ecommerce.Slide 50])
                  = "all"%string
                  ∨ Ecommerce.category p
                    = Ecommerce.selectedCategory
                        (Ecommerce.run Ecommerce.initial [Ecommerce.Slide 50]))
                 ∧ Ecommerce.price p
                   <= (Ecommerce.priceRange
                         (Ecommerce.run Ecommerce.initial [Ecommerce.Slide 50])).2)
      Ecommerce.products.
Proof.
  apply (slider_is_an_upper_bound Ecommerce.products [Ecommerce.Slide 50]).
  - unfold Ecommerce.products. repeat (apply Forall_cons; split; [simpl; lia|]).
    apply Forall_nil_2.
  - apply Forall_cons. split; [simpl; lia | apply Forall_nil_2].
Defined.
